(** * The MIDI sync controller: a shallow embedding of [SyncController]

    Source: [src/lib/midiEngine/SyncController.{h,cpp}], the message
    encoding, decoding and queue and the output port of
    [src/lib/midiEngine/MidiEngine.cpp], and the slots of
    [src/lib/ui/MidiMasterWindow.cpp] that stand between the engine and the
    controller.

    Modelling conventions.
    - C++ [int] members are integers of [Z].  Signed overflow is undefined
      behaviour in C++: the model describes the executions in which the
      counters stay within the range of [int].
    - C++ [double] values are exact rationals of [Q] (no rounding): all
      comparisons and arithmetic are those of the source, read over the
      rationals.  Numerical equalities between rationals are stated with [==].
    - [Clock::now()] is an input of the handlers that read it; time points
      are integer counts of nanoseconds.
    - The [MidiEngine] collaborator is seen from the controller through the
      calls made on it, recorded together with the Qt signals in an event
      trace.  MIDI messages are lists of integers, one per byte.
    - RtMidi is seen through what the engine observes of it: whether the
      output object exists, whether its port is open, and whether opening a
      port succeeds; closing a port is taken to succeed.
    - [QString::contains(_, Qt::CaseInsensitive)] and [QString::toInt] are
      parameters of the model of [findAutoSelectPort].
    - [qDebug] logging and the counters that only feed it are left out. *)

From Stdlib Require Import ZArith QArith Qround Qminmax Bool List Lia Lqa.
From Stdlib Require String.
Import ListNotations.
Import String.StringSyntax.
Delimit Scope string_scope with string.

Local Open Scope Z_scope.

(** ** Rational helpers *)

Definition Qltb (x y : Q) : bool := negb (Qle_bool y x).

(** [static_cast<int>] on a [double]: truncation toward zero. *)
Definition Qtrunc (q : Q) : Z :=
  if Qle_bool 0 q then Qfloor q else Qceiling q.

(** [qAbs] *)
Definition qAbs (q : Q) : Q := if Qle_bool 0 q then q else (- q)%Q.

(** ** Data model *)

(** [QTimer]: the period in milliseconds and whether it is running. *)
Record QTimer : Type := mkTimer {
  interval : Z;
  isActive : bool
}.

(** [std::chrono::high_resolution_clock::time_point], in nanoseconds. *)
Definition TimePoint : Type := Z.

(** Calls on the [MidiEngine] collaborator and Qt signals of the controller. *)
Inductive Event : Type :=
| SendNoteOn (channel note velocity : Z)
| SendNoteOff (channel note velocity : Z)
| SendSystemMessage (status : Z)
| RunningChanged (running : bool)
| BpmChanged (bpm : Q)
| ClockTick
| BeatSent (quarterNote : Z)
| PositionChanged (beats : Z) (quarterNotes : Q).

Definition MIDI_REALTIME_CLOCK : Z := 248.
Definition MIDI_REALTIME_START : Z := 250.
Definition MIDI_REALTIME_STOP : Z := 252.

Definition CLOCKS_PER_QUARTER_NOTE : Z := 24.
Definition CLOCKS_PER_WHOLE_NOTE : Z := 96.
Definition EMISSION_ADVANCE_MS : Q := 70.

(** The members of [class SyncController]; [m_engine] and [m_syncTimer] are
    pointers, modelled by a non-null flag and by an optional timer.  The static
    members [s_lastClockTime] and [s_clockWindow] are kept with the members of
    the one controller the program creates. *)
Record SyncController : Type := mkSync {
  m_engine : bool;
  m_syncTimer : option QTimer;
  m_isRunning : bool;
  m_currentBPM : Q;
  m_clockCount : Z;
  m_incomingClockCount : Z;
  m_bpmUpdateBlocked : bool;
  m_transportSyncBlocked : bool;
  m_currentPositionBeats : Z;
  m_currentPositionQuarterNotes : Q;
  m_lastEmittedWholeNote : Z;
  m_midiChannel : Z;
  m_midiNote : Z;
  m_midiVelocity : Z;
  m_noteOn : bool;
  s_lastClockTime : TimePoint;
  s_clockWindow : Z;
  m_lastClockMessageTime : TimePoint;
  m_predictedNextBoundaryQuarterNotes : Q;
  m_boundaryPending : bool;
  m_clocksSinceLastBoundary : Z;
  m_startTime : TimePoint
}.

(** Assignments to single members. *)
Definition set_syncTimer (v : option QTimer) (s : SyncController) :=
  mkSync (m_engine s) v (m_isRunning s) (m_currentBPM s) (m_clockCount s)
    (m_incomingClockCount s) (m_bpmUpdateBlocked s) (m_transportSyncBlocked s)
    (m_currentPositionBeats s) (m_currentPositionQuarterNotes s)
    (m_lastEmittedWholeNote s) (m_midiChannel s) (m_midiNote s)
    (m_midiVelocity s) (m_noteOn s) (s_lastClockTime s) (s_clockWindow s)
    (m_lastClockMessageTime s) (m_predictedNextBoundaryQuarterNotes s)
    (m_boundaryPending s) (m_clocksSinceLastBoundary s) (m_startTime s).

Definition set_isRunning (v : bool) (s : SyncController) :=
  mkSync (m_engine s) (m_syncTimer s) v (m_currentBPM s) (m_clockCount s)
    (m_incomingClockCount s) (m_bpmUpdateBlocked s) (m_transportSyncBlocked s)
    (m_currentPositionBeats s) (m_currentPositionQuarterNotes s)
    (m_lastEmittedWholeNote s) (m_midiChannel s) (m_midiNote s)
    (m_midiVelocity s) (m_noteOn s) (s_lastClockTime s) (s_clockWindow s)
    (m_lastClockMessageTime s) (m_predictedNextBoundaryQuarterNotes s)
    (m_boundaryPending s) (m_clocksSinceLastBoundary s) (m_startTime s).

Definition set_currentBPM (v : Q) (s : SyncController) :=
  mkSync (m_engine s) (m_syncTimer s) (m_isRunning s) v (m_clockCount s)
    (m_incomingClockCount s) (m_bpmUpdateBlocked s) (m_transportSyncBlocked s)
    (m_currentPositionBeats s) (m_currentPositionQuarterNotes s)
    (m_lastEmittedWholeNote s) (m_midiChannel s) (m_midiNote s)
    (m_midiVelocity s) (m_noteOn s) (s_lastClockTime s) (s_clockWindow s)
    (m_lastClockMessageTime s) (m_predictedNextBoundaryQuarterNotes s)
    (m_boundaryPending s) (m_clocksSinceLastBoundary s) (m_startTime s).

Definition set_clockCount (v : Z) (s : SyncController) :=
  mkSync (m_engine s) (m_syncTimer s) (m_isRunning s) (m_currentBPM s) v
    (m_incomingClockCount s) (m_bpmUpdateBlocked s) (m_transportSyncBlocked s)
    (m_currentPositionBeats s) (m_currentPositionQuarterNotes s)
    (m_lastEmittedWholeNote s) (m_midiChannel s) (m_midiNote s)
    (m_midiVelocity s) (m_noteOn s) (s_lastClockTime s) (s_clockWindow s)
    (m_lastClockMessageTime s) (m_predictedNextBoundaryQuarterNotes s)
    (m_boundaryPending s) (m_clocksSinceLastBoundary s) (m_startTime s).

Definition set_incomingClockCount (v : Z) (s : SyncController) :=
  mkSync (m_engine s) (m_syncTimer s) (m_isRunning s) (m_currentBPM s)
    (m_clockCount s) v (m_bpmUpdateBlocked s) (m_transportSyncBlocked s)
    (m_currentPositionBeats s) (m_currentPositionQuarterNotes s)
    (m_lastEmittedWholeNote s) (m_midiChannel s) (m_midiNote s)
    (m_midiVelocity s) (m_noteOn s) (s_lastClockTime s) (s_clockWindow s)
    (m_lastClockMessageTime s) (m_predictedNextBoundaryQuarterNotes s)
    (m_boundaryPending s) (m_clocksSinceLastBoundary s) (m_startTime s).

Definition set_bpmUpdateBlocked (v : bool) (s : SyncController) :=
  mkSync (m_engine s) (m_syncTimer s) (m_isRunning s) (m_currentBPM s)
    (m_clockCount s) (m_incomingClockCount s) v (m_transportSyncBlocked s)
    (m_currentPositionBeats s) (m_currentPositionQuarterNotes s)
    (m_lastEmittedWholeNote s) (m_midiChannel s) (m_midiNote s)
    (m_midiVelocity s) (m_noteOn s) (s_lastClockTime s) (s_clockWindow s)
    (m_lastClockMessageTime s) (m_predictedNextBoundaryQuarterNotes s)
    (m_boundaryPending s) (m_clocksSinceLastBoundary s) (m_startTime s).

Definition set_transportSyncBlocked (v : bool) (s : SyncController) :=
  mkSync (m_engine s) (m_syncTimer s) (m_isRunning s) (m_currentBPM s)
    (m_clockCount s) (m_incomingClockCount s) (m_bpmUpdateBlocked s) v
    (m_currentPositionBeats s) (m_currentPositionQuarterNotes s)
    (m_lastEmittedWholeNote s) (m_midiChannel s) (m_midiNote s)
    (m_midiVelocity s) (m_noteOn s) (s_lastClockTime s) (s_clockWindow s)
    (m_lastClockMessageTime s) (m_predictedNextBoundaryQuarterNotes s)
    (m_boundaryPending s) (m_clocksSinceLastBoundary s) (m_startTime s).

Definition set_currentPositionBeats (v : Z) (s : SyncController) :=
  mkSync (m_engine s) (m_syncTimer s) (m_isRunning s) (m_currentBPM s)
    (m_clockCount s) (m_incomingClockCount s) (m_bpmUpdateBlocked s)
    (m_transportSyncBlocked s) v (m_currentPositionQuarterNotes s)
    (m_lastEmittedWholeNote s) (m_midiChannel s) (m_midiNote s)
    (m_midiVelocity s) (m_noteOn s) (s_lastClockTime s) (s_clockWindow s)
    (m_lastClockMessageTime s) (m_predictedNextBoundaryQuarterNotes s)
    (m_boundaryPending s) (m_clocksSinceLastBoundary s) (m_startTime s).

Definition set_currentPositionQuarterNotes (v : Q) (s : SyncController) :=
  mkSync (m_engine s) (m_syncTimer s) (m_isRunning s) (m_currentBPM s)
    (m_clockCount s) (m_incomingClockCount s) (m_bpmUpdateBlocked s)
    (m_transportSyncBlocked s) (m_currentPositionBeats s) v
    (m_lastEmittedWholeNote s) (m_midiChannel s) (m_midiNote s)
    (m_midiVelocity s) (m_noteOn s) (s_lastClockTime s) (s_clockWindow s)
    (m_lastClockMessageTime s) (m_predictedNextBoundaryQuarterNotes s)
    (m_boundaryPending s) (m_clocksSinceLastBoundary s) (m_startTime s).

Definition set_lastEmittedWholeNote (v : Z) (s : SyncController) :=
  mkSync (m_engine s) (m_syncTimer s) (m_isRunning s) (m_currentBPM s)
    (m_clockCount s) (m_incomingClockCount s) (m_bpmUpdateBlocked s)
    (m_transportSyncBlocked s) (m_currentPositionBeats s)
    (m_currentPositionQuarterNotes s) v (m_midiChannel s) (m_midiNote s)
    (m_midiVelocity s) (m_noteOn s) (s_lastClockTime s) (s_clockWindow s)
    (m_lastClockMessageTime s) (m_predictedNextBoundaryQuarterNotes s)
    (m_boundaryPending s) (m_clocksSinceLastBoundary s) (m_startTime s).

Definition set_noteOn (v : bool) (s : SyncController) :=
  mkSync (m_engine s) (m_syncTimer s) (m_isRunning s) (m_currentBPM s)
    (m_clockCount s) (m_incomingClockCount s) (m_bpmUpdateBlocked s)
    (m_transportSyncBlocked s) (m_currentPositionBeats s)
    (m_currentPositionQuarterNotes s) (m_lastEmittedWholeNote s)
    (m_midiChannel s) (m_midiNote s) (m_midiVelocity s) v
    (s_lastClockTime s) (s_clockWindow s)
    (m_lastClockMessageTime s) (m_predictedNextBoundaryQuarterNotes s)
    (m_boundaryPending s) (m_clocksSinceLastBoundary s) (m_startTime s).

Definition set_s_lastClockTime (v : TimePoint) (s : SyncController) :=
  mkSync (m_engine s) (m_syncTimer s) (m_isRunning s) (m_currentBPM s)
    (m_clockCount s) (m_incomingClockCount s) (m_bpmUpdateBlocked s)
    (m_transportSyncBlocked s) (m_currentPositionBeats s)
    (m_currentPositionQuarterNotes s) (m_lastEmittedWholeNote s)
    (m_midiChannel s) (m_midiNote s) (m_midiVelocity s) (m_noteOn s)
    v (s_clockWindow s)
    (m_lastClockMessageTime s) (m_predictedNextBoundaryQuarterNotes s)
    (m_boundaryPending s) (m_clocksSinceLastBoundary s) (m_startTime s).

Definition set_s_clockWindow (v : Z) (s : SyncController) :=
  mkSync (m_engine s) (m_syncTimer s) (m_isRunning s) (m_currentBPM s)
    (m_clockCount s) (m_incomingClockCount s) (m_bpmUpdateBlocked s)
    (m_transportSyncBlocked s) (m_currentPositionBeats s)
    (m_currentPositionQuarterNotes s) (m_lastEmittedWholeNote s)
    (m_midiChannel s) (m_midiNote s) (m_midiVelocity s) (m_noteOn s)
    (s_lastClockTime s) v
    (m_lastClockMessageTime s) (m_predictedNextBoundaryQuarterNotes s)
    (m_boundaryPending s) (m_clocksSinceLastBoundary s) (m_startTime s).

Definition set_lastClockMessageTime (v : TimePoint) (s : SyncController) :=
  mkSync (m_engine s) (m_syncTimer s) (m_isRunning s) (m_currentBPM s)
    (m_clockCount s) (m_incomingClockCount s) (m_bpmUpdateBlocked s)
    (m_transportSyncBlocked s) (m_currentPositionBeats s)
    (m_currentPositionQuarterNotes s) (m_lastEmittedWholeNote s)
    (m_midiChannel s) (m_midiNote s) (m_midiVelocity s) (m_noteOn s)
    (s_lastClockTime s) (s_clockWindow s)
    v (m_predictedNextBoundaryQuarterNotes s)
    (m_boundaryPending s) (m_clocksSinceLastBoundary s) (m_startTime s).

Definition set_predictedNextBoundaryQuarterNotes (v : Q) (s : SyncController) :=
  mkSync (m_engine s) (m_syncTimer s) (m_isRunning s) (m_currentBPM s)
    (m_clockCount s) (m_incomingClockCount s) (m_bpmUpdateBlocked s)
    (m_transportSyncBlocked s) (m_currentPositionBeats s)
    (m_currentPositionQuarterNotes s) (m_lastEmittedWholeNote s)
    (m_midiChannel s) (m_midiNote s) (m_midiVelocity s) (m_noteOn s)
    (s_lastClockTime s) (s_clockWindow s)
    (m_lastClockMessageTime s) v
    (m_boundaryPending s) (m_clocksSinceLastBoundary s) (m_startTime s).

Definition set_boundaryPending (v : bool) (s : SyncController) :=
  mkSync (m_engine s) (m_syncTimer s) (m_isRunning s) (m_currentBPM s)
    (m_clockCount s) (m_incomingClockCount s) (m_bpmUpdateBlocked s)
    (m_transportSyncBlocked s) (m_currentPositionBeats s)
    (m_currentPositionQuarterNotes s) (m_lastEmittedWholeNote s)
    (m_midiChannel s) (m_midiNote s) (m_midiVelocity s) (m_noteOn s)
    (s_lastClockTime s) (s_clockWindow s)
    (m_lastClockMessageTime s) (m_predictedNextBoundaryQuarterNotes s)
    v (m_clocksSinceLastBoundary s) (m_startTime s).

Definition set_clocksSinceLastBoundary (v : Z) (s : SyncController) :=
  mkSync (m_engine s) (m_syncTimer s) (m_isRunning s) (m_currentBPM s)
    (m_clockCount s) (m_incomingClockCount s) (m_bpmUpdateBlocked s)
    (m_transportSyncBlocked s) (m_currentPositionBeats s)
    (m_currentPositionQuarterNotes s) (m_lastEmittedWholeNote s)
    (m_midiChannel s) (m_midiNote s) (m_midiVelocity s) (m_noteOn s)
    (s_lastClockTime s) (s_clockWindow s)
    (m_lastClockMessageTime s) (m_predictedNextBoundaryQuarterNotes s)
    (m_boundaryPending s) v (m_startTime s).

Definition set_startTime (v : TimePoint) (s : SyncController) :=
  mkSync (m_engine s) (m_syncTimer s) (m_isRunning s) (m_currentBPM s)
    (m_clockCount s) (m_incomingClockCount s) (m_bpmUpdateBlocked s)
    (m_transportSyncBlocked s) (m_currentPositionBeats s)
    (m_currentPositionQuarterNotes s) (m_lastEmittedWholeNote s)
    (m_midiChannel s) (m_midiNote s) (m_midiVelocity s) (m_noteOn s)
    (s_lastClockTime s) (s_clockWindow s)
    (m_lastClockMessageTime s) (m_predictedNextBoundaryQuarterNotes s)
    (m_boundaryPending s) (m_clocksSinceLastBoundary s) v.

(** The constructor [SyncController(engine, parent)], run at instant [now]. *)
Definition SyncController_new (engine : bool) (now : TimePoint) : SyncController :=
  {| m_engine := engine;
     m_syncTimer := None;
     m_isRunning := false;
     m_currentBPM := 120;
     m_clockCount := 0;
     m_incomingClockCount := 0;
     m_bpmUpdateBlocked := false;
     m_transportSyncBlocked := false;
     m_currentPositionBeats := 0;
     m_currentPositionQuarterNotes := 0;
     m_lastEmittedWholeNote := -1;
     m_midiChannel := 0;
     m_midiNote := 60;
     m_midiVelocity := 100;
     m_noteOn := false;
     s_lastClockTime := now;
     s_clockWindow := 0;
     m_lastClockMessageTime := now;
     m_predictedNextBoundaryQuarterNotes := -1;
     m_boundaryPending := false;
     m_clocksSinceLastBoundary := 0;
     m_startTime := now |}.

(** ** A state-and-trace monad for the member functions *)

Definition Cmd (A : Type) : Type :=
  SyncController -> A * SyncController * list Event.

Definition ret {A} (a : A) : Cmd A := fun s => (a, s, []).

Definition bind {A B} (c : Cmd A) (k : A -> Cmd B) : Cmd B :=
  fun s =>
    let '(a, s1, e1) := c s in
    let '(b, s2, e2) := k a s1 in
    (b, s2, e1 ++ e2).

Definition get : Cmd SyncController := fun s => (s, s, []).
Definition modify (f : SyncController -> SyncController) : Cmd unit :=
  fun s => (tt, f s, []).
Definition emit (e : Event) : Cmd unit := fun s => (tt, s, [e]).
Definition when (b : bool) (c : Cmd unit) : Cmd unit :=
  if b then c else ret tt.

Declare Scope cmd_scope.
Delimit Scope cmd_scope with cmd.
Notation "x <- c ;; k" := (bind c (fun x => k))
  (at level 61, c at next level, right associativity) : cmd_scope.
Notation "c ;; k" := (bind c (fun _ => k))
  (at level 61, right associativity) : cmd_scope.
Local Open Scope cmd_scope.

(** Result, state and trace left by a member function. *)
Definition result {A} (c : Cmd A) (s : SyncController) : A :=
  fst (fst (c s)).
Definition exec {A} (c : Cmd A) (s : SyncController) : SyncController :=
  snd (fst (c s)).
Definition trace {A} (c : Cmd A) (s : SyncController) : list Event :=
  snd (c s).

(** ** Member functions *)

Definition blockBPMUpdates (block : bool) : Cmd unit :=
  modify (set_bpmUpdateBlocked block).

Definition blockTransportSync (block : bool) : Cmd unit :=
  modify (set_transportSyncBlocked block).

(** [m_syncTimer] is not null. *)
Definition hasTimer (s : SyncController) : bool :=
  match m_syncTimer s with Some _ => true | None => false end.

(** [updateSyncTimer]: the period is [(60 / bpm / 24) * 1000] ms, truncated. *)
Definition updateSyncTimer : Cmd unit :=
  s <- get ;;
  match m_syncTimer s with
  | None => ret tt
  | Some t =>
      let intervalMs := ((60 / m_currentBPM s / 24) * 1000)%Q in
      modify (set_syncTimer (Some (mkTimer (Qtrunc intervalMs) (isActive t))))
  end.

(** [setBPM(bpm)] *)
Definition setBPM (bpm : Q) : Cmd unit :=
  if Qle_bool 20 bpm && Qle_bool bpm 300 then
    modify (set_currentBPM bpm) ;;
    s <- get ;;
    when (hasTimer s) updateSyncTimer ;;
    emit (BpmChanged bpm)
  else ret tt.

(** [m_syncTimer->start()] and [m_syncTimer->stop()], when the timer exists. *)
Definition timerSetActive (b : bool) (s : SyncController) : SyncController :=
  match m_syncTimer s with
  | Some t => set_syncTimer (Some (mkTimer (interval t) b)) s
  | None => s
  end.

(** [start(sendStartCommand)], at instant [now]. *)
Definition start (sendStartCommand : bool) (now : TimePoint) : Cmd unit :=
  s <- get ;;
  when (negb (hasTimer s)) (modify (set_syncTimer (Some (mkTimer 0 false)))) ;;
  modify (set_isRunning true) ;;
  modify (set_startTime now) ;;
  updateSyncTimer ;;
  modify (timerSetActive true) ;;
  s <- get ;;
  when (sendStartCommand && m_engine s)
    (emit (SendSystemMessage MIDI_REALTIME_START)) ;;
  emit (RunningChanged true).

(** [stop(sendStopCommand)] *)
Definition stop (sendStopCommand : bool) : Cmd unit :=
  modify (timerSetActive false) ;;
  s <- get ;;
  let noteWasOn := m_noteOn s in
  modify (set_clockCount 0) ;;
  modify (set_isRunning false) ;;
  modify (set_currentPositionBeats 0) ;;
  modify (set_currentPositionQuarterNotes 0) ;;
  modify (set_lastEmittedWholeNote (-1)) ;;
  modify (set_predictedNextBoundaryQuarterNotes (-1)) ;;
  modify (set_boundaryPending false) ;;
  modify (set_clocksSinceLastBoundary 0) ;;
  when (m_engine s)
    (when noteWasOn
       (emit (SendNoteOff (m_midiChannel s) (m_midiNote s) 0) ;;
        modify (set_noteOn false)) ;;
     when sendStopCommand (emit (SendSystemMessage MIDI_REALTIME_STOP))) ;;
  emit (RunningChanged false) ;;
  emit (PositionChanged 0 0).

(** [handleDAWStart()], at instant [now]: inbound Start. *)
Definition handleDAWStart (now : TimePoint) : Cmd unit :=
  s <- get ;;
  when (negb (m_transportSyncBlocked s) && negb (m_isRunning s))
    (modify (set_transportSyncBlocked true) ;;
     modify (set_clockCount 0) ;;
     modify (set_currentPositionBeats 0) ;;
     modify (set_currentPositionQuarterNotes 0) ;;
     modify (set_lastEmittedWholeNote (-1)) ;;
     modify (set_predictedNextBoundaryQuarterNotes 0) ;;
     modify (set_boundaryPending false) ;;
     modify (set_clocksSinceLastBoundary 0) ;;
     modify (set_s_lastClockTime now) ;;
     modify (set_s_clockWindow 0) ;;
     modify (set_lastClockMessageTime now) ;;
     modify (set_startTime now) ;;
     modify (set_isRunning true) ;;
     emit (RunningChanged true) ;;
     modify (set_transportSyncBlocked false)).

(** [handleDAWStop()]: inbound Stop. *)
Definition handleDAWStop : Cmd unit :=
  s <- get ;;
  when (negb (m_transportSyncBlocked s) && m_isRunning s)
    (modify (set_transportSyncBlocked true) ;;
     stop false ;;
     modify (set_transportSyncBlocked false)).

(** [handleDAWContinue()], at instant [now]: inbound Continue. *)
Definition handleDAWContinue (now : TimePoint) : Cmd unit :=
  s <- get ;;
  when (negb (m_transportSyncBlocked s) && negb (m_isRunning s))
    (modify (set_transportSyncBlocked true) ;;
     let currentWholeNote := Qtrunc (m_currentPositionQuarterNotes s / 4) in
     modify (set_lastEmittedWholeNote (currentWholeNote - 1)) ;;
     modify (set_predictedNextBoundaryQuarterNotes
               (inject_Z currentWholeNote * 4)) ;;
     modify (set_boundaryPending false) ;;
     let positionInCurrentBoundary :=
       (m_currentPositionQuarterNotes s - inject_Z currentWholeNote * 4)%Q in
     modify (set_clocksSinceLastBoundary
               (Qtrunc (positionInCurrentBoundary
                        * inject_Z CLOCKS_PER_QUARTER_NOTE))) ;;
     modify (set_s_lastClockTime now) ;;
     modify (set_s_clockWindow 0) ;;
     modify (set_lastClockMessageTime now) ;;
     modify (set_startTime now) ;;
     modify (set_isRunning true) ;;
     emit (RunningChanged true) ;;
     modify (set_transportSyncBlocked false)).

(** The BPM used for the advance: the stored one, or 120 when it is out of
    range. *)
Definition safeBPM (bpm : Q) : Q :=
  if Qltb bpm 20 || Qltb 300 bpm then 120 else bpm.

(** The advance window in ticks for a given (safe) BPM. *)
Definition emissionAdvanceTicks (bpm : Q) : Q :=
  let msPerTick := ((60000 / bpm) / inject_Z CLOCKS_PER_QUARTER_NOTE)%Q in
  let adv := (EMISSION_ADVANCE_MS / msPerTick)%Q in
  if Qltb adv (3 # 2) then (3 # 2)%Q else adv.

(** The locals of [checkAndEmitWholeNote], as functions of its argument and
    of the state read in its first critical section. *)
Definition currentBoundary (positionQuarterNotes : Q) : Z :=
  Qfloor (positionQuarterNotes / 4).

Definition positionInBoundary (positionQuarterNotes : Q) : Q :=
  (positionQuarterNotes - inject_Z (currentBoundary positionQuarterNotes) * 4)%Q.

Definition ticksToNextBoundary (positionQuarterNotes : Q) : Q :=
  ((4 - positionInBoundary positionQuarterNotes)
   * inject_Z CLOCKS_PER_QUARTER_NOTE)%Q.

Definition nextBoundary (positionQuarterNotes : Q) : Z :=
  currentBoundary positionQuarterNotes + 1.

Definition isFirstDownbeat (positionQuarterNotes : Q) (s : SyncController)
  : bool :=
  (currentBoundary positionQuarterNotes =? 0)
  && (m_lastEmittedWholeNote s <? 0)
  && Qltb positionQuarterNotes 1.

Definition shouldEmit (positionQuarterNotes : Q) (s : SyncController) : bool :=
  isFirstDownbeat positionQuarterNotes s
  || ((nextBoundary positionQuarterNotes >? m_lastEmittedWholeNote s)
      && Qle_bool (ticksToNextBoundary positionQuarterNotes)
                  (emissionAdvanceTicks (safeBPM (m_currentBPM s)))).

Definition boundaryToEmit (positionQuarterNotes : Q) (s : SyncController) : Z :=
  if isFirstDownbeat positionQuarterNotes s
  then currentBoundary positionQuarterNotes
  else nextBoundary positionQuarterNotes.

(** The note-off test of the second critical section. *)
Definition noteShouldBeOff (positionQuarterNotes : Q) (s : SyncController)
  : bool :=
  let positionInCurrentBoundary :=
    (positionQuarterNotes
     - inject_Z (currentBoundary positionQuarterNotes) * 4)%Q in
  m_noteOn s && Qltb 0 positionInCurrentBoundary
  && Qltb positionInCurrentBoundary (2 # 5).

(** [checkAndEmitWholeNote(positionQuarterNotes)] *)
Definition checkAndEmitWholeNote (positionQuarterNotes : Q) : Cmd unit :=
  (* first critical section: the note-on decision *)
  s <- get ;;
  let emitNow := shouldEmit positionQuarterNotes s in
  let boundary := boundaryToEmit positionQuarterNotes s in
  let quarterNoteCount := boundary * 4 in
  let positionBeats := m_currentPositionBeats s in
  let currentPositionQuarterNotes := m_currentPositionQuarterNotes s in
  when emitNow
    (modify (set_lastEmittedWholeNote boundary) ;;
     modify (set_predictedNextBoundaryQuarterNotes
               (inject_Z (boundary + 1) * 4)) ;;
     modify (set_clocksSinceLastBoundary 0)) ;;
  (* second critical section: the note-off decision *)
  s <- get ;;
  let noteOff := noteShouldBeOff positionQuarterNotes s in
  when noteOff (modify (set_noteOn false)) ;;
  when (noteOff && m_engine s)
    (emit (SendNoteOff (m_midiChannel s) (m_midiNote s) 0)) ;;
  (* the note-on itself *)
  when (emitNow && m_engine s)
    (emit (SendNoteOn (m_midiChannel s) (m_midiNote s) (m_midiVelocity s)) ;;
     modify (set_noteOn true) ;;
     emit (BeatSent quarterNoteCount) ;;
     emit (PositionChanged positionBeats currentPositionQuarterNotes)).

(** The critical section of [handleSongPositionPointer]; returns the local
    [isRunning]. *)
Definition sppUpdatePosition (positionBeats : Z) (positionQuarterNotes : Q)
  : Cmd bool :=
  if 0 <=? positionBeats then
    s <- get ;;
    let previousPosition := m_currentPositionQuarterNotes s in
    modify (set_currentPositionBeats positionBeats) ;;
    modify (set_currentPositionQuarterNotes positionQuarterNotes) ;;
    modify (set_clockCount (positionBeats * 4)) ;;
    let isSeekingBackwards :=
      Qltb positionQuarterNotes (previousPosition - (1 # 2)) in
    let currentWholeNote := Qtrunc (positionQuarterNotes / 4) in
    let fractionIntoBoundary :=
      (positionQuarterNotes - inject_Z currentWholeNote * 4)%Q in
    when (negb (m_isRunning s) || isSeekingBackwards)
      (let lastEmitted :=
         if Qltb fractionIntoBoundary 2 then currentWholeNote - 1
         else currentWholeNote in
       modify (set_lastEmittedWholeNote lastEmitted) ;;
       modify (set_predictedNextBoundaryQuarterNotes
                 (inject_Z (lastEmitted + 1) * 4))) ;;
    modify (set_clocksSinceLastBoundary
              (Qtrunc (fractionIntoBoundary
                       * inject_Z CLOCKS_PER_QUARTER_NOTE))) ;;
    ret (m_isRunning s)
  else ret false.

(** [handleSongPositionPointer(positionBeats, positionQuarterNotes)] *)
Definition handleSongPositionPointer
    (positionBeats : Z) (positionQuarterNotes : Q) : Cmd unit :=
  isRunning <- sppUpdatePosition positionBeats positionQuarterNotes ;;
  when (isRunning && Qle_bool 0 positionQuarterNotes)
    (checkAndEmitWholeNote positionQuarterNotes) ;;
  emit (PositionChanged positionBeats positionQuarterNotes).

(** Elapsed seconds between two instants, through
    [duration_cast<microseconds>]. *)
Definition elapsedSeconds (from to : TimePoint) : Q :=
  (inject_Z (Z.quot (to - from) 1000) / 1000000)%Q.

(** The BPM window of [handleMIDIClock] (its non-critical path). *)
Definition bpmWindow (currentTime : TimePoint) : Cmd unit :=
  s <- get ;;
  when (s_clockWindow s =? 0)
    (modify (set_s_lastClockTime currentTime) ;;
     modify (set_s_clockWindow CLOCKS_PER_QUARTER_NOTE)) ;;
  s <- get ;;
  modify (set_s_clockWindow (s_clockWindow s - 1)) ;;
  s <- get ;;
  let needsBPMCalc := s_clockWindow s =? 0 in
  let lastClockTimeForBPM := s_lastClockTime s in
  when needsBPMCalc
    (let elapsed := elapsedSeconds lastClockTimeForBPM currentTime in
     (if Qltb (1 # 5) elapsed && Qltb elapsed 3 then
        let calculatedBPM := (60 / elapsed)%Q in
        when (Qle_bool 20 calculatedBPM && Qle_bool calculatedBPM 300
              && Qltb (1 # 2) (qAbs (calculatedBPM - m_currentBPM s))
              && negb (m_bpmUpdateBlocked s))
          (modify (set_currentBPM calculatedBPM) ;;
           when (hasTimer s) updateSyncTimer)
      else ret tt) ;;
     modify (set_s_lastClockTime currentTime) ;;
     modify (set_s_clockWindow CLOCKS_PER_QUARTER_NOTE)).

(** The critical path of [handleMIDIClock]: the position advanced by one
    clock; returns the locals [isRunning] and [positionQuarterNotes]. *)
Definition clockPosition (currentTime : TimePoint) : Cmd (bool * Q) :=
  modify (fun s => set_incomingClockCount (m_incomingClockCount s + 1) s) ;;
  modify (set_lastClockMessageTime currentTime) ;;
  s <- get ;;
  if m_isRunning s then
    let positionQuarterNotes :=
      (inject_Z (m_clockCount s + 1) / inject_Z CLOCKS_PER_QUARTER_NOTE)%Q in
    modify (set_clockCount (m_clockCount s + 1)) ;;
    modify (set_clocksSinceLastBoundary (m_clocksSinceLastBoundary s + 1)) ;;
    modify (set_currentPositionQuarterNotes positionQuarterNotes) ;;
    modify (set_currentPositionBeats (Qtrunc (positionQuarterNotes * 4))) ;;
    ret (true, positionQuarterNotes)
  else ret (false, 0%Q).

(** [handleMIDIClock()], at instant [currentTime]. *)
Definition handleMIDIClock (currentTime : TimePoint) : Cmd unit :=
  p <- clockPosition currentTime ;;
  let isRunning := fst p in
  let positionQuarterNotes := snd p in
  s <- get ;;
  when (isRunning && m_engine s) (checkAndEmitWholeNote positionQuarterNotes) ;;
  bpmWindow currentTime ;;
  emit ClockTick.

(** [updateBPMFromDAW(bpm)] *)
Definition updateBPMFromDAW (bpm : Q) : Cmd unit :=
  if Qle_bool 20 bpm && Qle_bool bpm 300 then
    s <- get ;;
    let shouldUpdate :=
      negb (m_bpmUpdateBlocked s)
      && Qltb (1 # 10) (qAbs (bpm - m_currentBPM s)) in
    when shouldUpdate
      (modify (set_currentBPM bpm) ;;
       when (hasTimer s) updateSyncTimer ;;
       emit (BpmChanged bpm))
  else ret tt.

(** [syncBPMToDAW(bpm)] *)
Definition syncBPMToDAW (bpm : Z) : Cmd unit :=
  emit (BpmChanged (inject_Z bpm)).

(** [onSyncTick()]: the slot of the internal timer. *)
Definition onSyncTick : Cmd unit :=
  s <- get ;;
  let isRunning := m_isRunning s in
  let positionQuarterNotes :=
    if isRunning
    then (inject_Z (m_clockCount s + 1) / inject_Z CLOCKS_PER_QUARTER_NOTE)%Q
    else 0%Q in
  when isRunning
    (modify (set_clockCount (m_clockCount s + 1)) ;;
     modify (set_currentPositionQuarterNotes positionQuarterNotes) ;;
     modify (set_currentPositionBeats (Qtrunc (positionQuarterNotes * 4)))) ;;
  when (isRunning && m_engine s)
    (emit (SendSystemMessage MIDI_REALTIME_CLOCK) ;;
     checkAndEmitWholeNote positionQuarterNotes).

(** ** Song Position Pointer decoding ([MidiEngine], [MidiMasterWindow]) *)

(** [processQueuedMessages], case [0xF2]: the 16-bit position built from the
    two data bytes, and the quarter-note position sent along with it. *)
Definition sppPosition (lsb msb : Z) : Z :=
  Z.lor lsb (Z.shiftl msb 7) mod 2 ^ 16.

Definition sppQuarterNotes (position : Z) : Q := (inject_Z position / 4)%Q.

(** [MidiMasterWindow::onSyncControllerSongPositionPointer] *)
Definition onSyncControllerSongPositionPointer
    (positionBeats : Z) (positionQuarterNotes : Q) : Cmd unit :=
  when ((positionBeats >? 0) || Qltb 0 positionQuarterNotes)
    (handleSongPositionPointer positionBeats positionQuarterNotes).

(** Receipt of the message [0xF2 lsb msb]. *)
Definition receiveSongPositionPointer (lsb msb : Z) : Cmd unit :=
  let position := sppPosition lsb msb in
  onSyncControllerSongPositionPointer position (sppQuarterNotes position).

(** ** Runs and observations *)

(** A member function run from [s]: the state it leaves and its events, each
    stamped with the tick count ([m_clockCount]) reached. *)
Definition stamp (c : Cmd unit) (s : SyncController)
  : SyncController * list (Z * Event) :=
  let s' := exec c s in
  (s', map (pair (m_clockCount s')) (trace c s)).

(** Inbound Clock messages received at the instants [ts]. *)
Fixpoint clockRun (ts : list TimePoint) (s : SyncController)
  : SyncController * list (Z * Event) :=
  match ts with
  | [] => (s, [])
  | t :: ts' =>
      let (s1, tr1) := stamp (handleMIDIClock t) s in
      let (s2, tr2) := clockRun ts' s1 in
      (s2, tr1 ++ tr2)
  end.


Definition isNoteOn (e : Z * Event) : bool :=
  match snd e with SendNoteOn _ _ _ => true | _ => false end.

Definition isNoteOff (e : Z * Event) : bool :=
  match snd e with SendNoteOff _ _ _ => true | _ => false end.

Definition isBpmChanged (e : Event) : bool :=
  match e with BpmChanged _ => true | _ => false end.

Definition countNoteOn (tr : list (Z * Event)) : Z :=
  Z.of_nat (length (filter isNoteOn tr)).

Definition countNoteOff (tr : list (Z * Event)) : Z :=
  Z.of_nat (length (filter isNoteOff tr)).

(** Tick of the latest note-off of a trace, [last] when it has none. *)
Fixpoint lastNoteOffTick (last : option Z) (tr : list (Z * Event))
  : option Z :=
  match tr with
  | [] => last
  | e :: tr' => lastNoteOffTick (if isNoteOff e then Some (fst e) else last) tr'
  end.

(** Every [beatSent(q)], the signal of the note-on for boundary [q / 4], finds
    the latest earlier note-off (if any) at a tick of
    [[96 (q/4 - shift), 96 (q/4 - shift) + 10)]. *)
Fixpoint noteOffBeforeOnIn (shift : Z) (last : option Z)
    (tr : list (Z * Event)) : Prop :=
  match tr with
  | [] => True
  | e :: tr' =>
      match snd e with
      | BeatSent q =>
          match last with
          | Some t0 =>
              96 * (q / 4 - shift) <= t0 < 96 * (q / 4 - shift) + 10
          | None => True
          end
      | _ => True
      end
      /\ noteOffBeforeOnIn shift
           (if isNoteOff e then Some (fst e) else last) tr'
  end.

(** Boundary of the note-on still waiting for its note-off at the end of a
    trace, [pending] being the one waiting at its start. *)
Fixpoint pendingAfter (pending : option Z) (tr : list (Z * Event))
  : option Z :=
  match tr with
  | [] => pending
  | e :: tr' =>
      pendingAfter
        (match snd e with
         | BeatSent q => Some (q / 4)
         | SendNoteOff _ _ _ => None
         | _ => pending
         end) tr'
  end.

(** Note-ons and note-offs alternate, and the note-off that follows the
    note-on of boundary [b] is at a tick of [[96 b, 96 b + 10)]. *)
Fixpoint noteOffAfterOnIn (pending : option Z) (tr : list (Z * Event))
  : Prop :=
  match tr with
  | [] => True
  | e :: tr' =>
      match snd e with
      | BeatSent q => pending = None /\ noteOffAfterOnIn (Some (q / 4)) tr'
      | SendNoteOff _ _ _ =>
          match pending with
          | Some b => 96 * b <= fst e < 96 * b + 10
          | None => True
          end
          /\ noteOffAfterOnIn None tr'
      | _ => noteOffAfterOnIn pending tr'
      end
  end.

(** Tick of the first note-off of a trace. *)
Fixpoint nextNoteOffTick (tr : list (Z * Event)) : option Z :=
  match tr with
  | [] => None
  | e :: tr' => if isNoteOff e then Some (fst e) else nextNoteOffTick tr'
  end.

(** For every [beatSent(q)] of the trace (the note-on of boundary [q / 4]),
    the latest earlier note-off, if any, is at a tick of
    [[96 (q/4 - shift), 96 (q/4 - shift) + 10)]. *)
Definition noteOffBeforeOn (shift : Z) (tr : list (Z * Event)) : Prop :=
  forall pre tick q post t0,
    tr = pre ++ (tick, BeatSent q) :: post ->
    lastNoteOffTick None pre = Some t0 ->
    96 * (q / 4 - shift) <= t0 < 96 * (q / 4 - shift) + 10.

(** For every [beatSent(q)] of the trace (the note-on of boundary [q / 4]),
    the first later note-off, if any, is at a tick of
    [[96 (q/4), 96 (q/4) + 10)]. *)
Definition noteOffAfterOn (tr : list (Z * Event)) : Prop :=
  forall pre tick q post t0,
    tr = pre ++ (tick, BeatSent q) :: post ->
    nextNoteOffTick post = Some t0 ->
    96 * (q / 4) <= t0 < 96 * (q / 4) + 10.


(** Some note-on is sent. *)
Definition sendsNoteOn (tr : list Event) : Prop :=
  exists channel note velocity, In (SendNoteOn channel note velocity) tr.

(** Some note-off is sent. *)
Definition sendsNoteOff (tr : list Event) : Prop :=
  exists channel note velocity, In (SendNoteOff channel note velocity) tr.

(** ** Quantities of the specification *)


(** Whole ticks of advance: a boundary is considered for emission from this
    many ticks before it. *)
Definition leadTicks (bpm : Q) : Z :=
  Qfloor (emissionAdvanceTicks (safeBPM bpm)).

(** The estimator's proposal is accepted. *)
Definition bpmAccepted (s : SyncController) (elapsed : Q) : bool :=
  Qltb (1 # 5) elapsed && Qltb elapsed 3
  && (Qle_bool 20 (60 / elapsed) && Qle_bool (60 / elapsed) 300
      && Qltb (1 # 2) (qAbs (60 / elapsed - m_currentBPM s))
      && negb (m_bpmUpdateBlocked s)).

(** ** The invariant of a run of clocks *)

(** Tick at which the note of boundary [b] is released in a run of clocks. *)
Definition releaseTick (b : Z) : Z := if b =? 0 then 2 else 96 * b + 1.

(** What holds of a run after at least one clock. *)
Record runInv (s : SyncController) (tr : list (Z * Event)) : Prop := {
  inv_running : m_isRunning s = true;
  inv_engine : m_engine s = true;
  inv_tick : 1 <= m_clockCount s;
  inv_last_lo : (m_clockCount s + 1) / 96 <= m_lastEmittedWholeNote s;
  inv_last_hi : m_lastEmittedWholeNote s <= (m_clockCount s + 8) / 96;
  inv_noteOn :
    m_noteOn s = true <->
    (m_clockCount s = 1
     \/ m_lastEmittedWholeNote s = m_clockCount s / 96 + 1
     \/ m_clockCount s mod 96 = 0);
  inv_ons : countNoteOn tr = m_lastEmittedWholeNote s + 1;
  inv_offs :
    countNoteOff tr + (if m_noteOn s then 1 else 0) = countNoteOn tr;
  inv_lastOff :
    lastNoteOffTick None tr =
    if m_clockCount s =? 1 then None
    else Some (releaseTick (if m_noteOn s
                            then m_lastEmittedWholeNote s - 1
                            else m_lastEmittedWholeNote s));
  inv_order : noteOffBeforeOnIn 1 None tr;
  inv_pending :
    pendingAfter None tr =
    if m_noteOn s then Some (m_lastEmittedWholeNote s) else None;
  inv_after : noteOffAfterOnIn None tr
}.

(** A run that has just started: running, at tick 0, nothing emitted. *)
Definition freshRun (s : SyncController) : Prop :=
  m_isRunning s = true /\ m_engine s = true /\ m_clockCount s = 0
  /\ m_lastEmittedWholeNote s = -1 /\ m_noteOn s = false.

(** ** Concrete controllers and clock timings *)

(** A controller just constructed with an engine. *)
Definition newController : SyncController := SyncController_new true 0.

(** A controller on which inbound Start has just been handled. *)
Definition startedController : SyncController :=
  exec (handleDAWStart 0) newController.


(** A running controller at quarter note 10 (tick 240), boundaries 0 to 2
    emitted. *)
Definition atQuarterNote10 : SyncController :=
  set_currentPositionQuarterNotes 10
    (set_clockCount 240
       (set_lastEmittedWholeNote 2 (set_isRunning true newController))).


(** [n] instants, [dt] nanoseconds apart. *)
Definition clockTimes (n : nat) (dt : Z) : list TimePoint :=
  map (fun i => Z.of_nat i * dt) (seq 1 n).

(** Clock period at 120 BPM, in nanoseconds. *)
Definition period120 : Z := 20833333.

(** ** [MidiEngine]: outbound messages *)

(** [static_cast<unsigned char>] of an [int]. *)
Definition toByte (x : Z) : Z := x mod 256.

(** The bytes [sendNoteOn] hands to [RtMidiOut::sendMessage]. *)
Definition noteOnMessage (channel note velocity : Z) : list Z :=
  [toByte (Z.lor 144 (Z.land channel 15));
   toByte (Z.land note 127);
   toByte (Z.land velocity 127)].

(** The bytes of [sendNoteOff]. *)
Definition noteOffMessage (channel note velocity : Z) : list Z :=
  [toByte (Z.lor 128 (Z.land channel 15));
   toByte (Z.land note 127);
   toByte (Z.land velocity 127)].

(** The byte of [sendSystemMessage]. *)
Definition systemMessage (status : Z) : list Z :=
  [toByte (Z.land status 255)].

(** The bytes of [sendSongPositionPointer]. *)
Definition songPositionPointerMessage (position : Z) : list Z :=
  let lsb := toByte (Z.land position 127) in
  let msb := toByte (Z.land (Z.shiftr position 7) 127) in
  [242; lsb; msb].

(** The four send functions: the messages written, none when no output port
    is open ([!m_rtMidiOut || !m_rtMidiOut->isPortOpen()]). *)
Definition sendNoteOn (portOpen : bool) (channel note velocity : Z)
  : list (list Z) :=
  if portOpen then [noteOnMessage channel note velocity] else [].

Definition sendNoteOff (portOpen : bool) (channel note velocity : Z)
  : list (list Z) :=
  if portOpen then [noteOffMessage channel note velocity] else [].

Definition sendSystemMessage (portOpen : bool) (status : Z)
  : list (list Z) :=
  if portOpen then [systemMessage status] else [].

Definition sendSongPositionPointer (portOpen : bool) (position : Z)
  : list (list Z) :=
  if portOpen then [songPositionPointerMessage position] else [].

(** What the calls recorded in a controller trace write to the output port. *)
Definition outbound (portOpen : bool) (e : Event) : list (list Z) :=
  match e with
  | SendNoteOn channel note velocity =>
      sendNoteOn portOpen channel note velocity
  | SendNoteOff channel note velocity =>
      sendNoteOff portOpen channel note velocity
  | SendSystemMessage status => sendSystemMessage portOpen status
  | _ => []
  end.

Definition wire (portOpen : bool) (tr : list Event) : list (list Z) :=
  flat_map (outbound portOpen) tr.

(** A MIDI message: a status byte with the high bit set, then data bytes
    with the high bit clear. *)
Definition isDataByte (b : Z) : Prop := 0 <= b <= 127.

Definition wellFormedMessage (message : list Z) : Prop :=
  match message with
  | [] => False
  | status :: data => 128 <= status <= 255 /\ Forall isDataByte data
  end.

(** ** [MidiEngine]: inbound messages *)

(** The signals [processQueuedMessages] emits. *)
Inductive EngineSignal : Type :=
| MidiClockReceived
| MidiStartReceived
| MidiContinueReceived
| MidiStopReceived
| MidiSongPositionPointerReceived (positionBeats : Z) (positionQuarterNotes : Q)
| UnknownMessageReceived (status : Z).

(** The body of the loop of [processQueuedMessages] for one dequeued
    message, a list of bytes. *)
Definition processMessage (message : list Z) : list EngineSignal :=
  match message with
  | [] => []
  | statusByte :: data =>
      if (248 <=? statusByte) && (statusByte <=? 255) then
        if statusByte =? 248 then [MidiClockReceived]
        else if statusByte =? 250 then [MidiStartReceived]
        else if statusByte =? 251 then [MidiContinueReceived]
        else if statusByte =? 252 then [MidiStopReceived]
        else if statusByte =? 254 then []
        else [UnknownMessageReceived statusByte]
      else if (240 <=? statusByte) && (statusByte <=? 247) then
        if statusByte =? 242 then
          match data with
          | lsb :: msb :: _ =>
              let position := sppPosition lsb msb in
              [MidiSongPositionPointerReceived
                 position (sppQuarterNotes position)]
          | _ => []
          end
        else if statusByte =? 240 then []
        else [UnknownMessageReceived statusByte]
      else []
  end.

(** [rtMidiCallback]: a non-empty message joins the queue. *)
Definition rtMidiCallback (message : list Z) (queue : list (list Z))
  : list (list Z) :=
  match message with
  | [] => queue
  | _ => queue ++ [message]
  end.

(** [processQueuedMessages]: the signals of the queued messages, oldest
    first; the queue is left empty. *)
Definition processQueuedMessages (queue : list (list Z))
  : list EngineSignal * list (list Z) :=
  (flat_map processMessage queue, []).

(** ** [MidiMasterWindow]: the slots between engine and controller *)

(** The slot connected to each engine signal, run at instant [now]. *)
Definition onEngineSignal (now : TimePoint) (signal : EngineSignal)
  : Cmd unit :=
  match signal with
  | MidiClockReceived => handleMIDIClock now
  | MidiStartReceived => handleDAWStart now
  | MidiContinueReceived => handleDAWContinue now
  | MidiStopReceived => handleDAWStop
  | MidiSongPositionPointerReceived positionBeats positionQuarterNotes =>
      onSyncControllerSongPositionPointer positionBeats positionQuarterNotes
  | UnknownMessageReceived _ => ret tt
  end.

Fixpoint onEngineSignals (now : TimePoint) (signals : list EngineSignal)
  : Cmd unit :=
  match signals with
  | [] => ret tt
  | signal :: rest => onEngineSignal now signal ;; onEngineSignals now rest
  end.

(** An inbound message from the queue to the controller. *)
Definition receiveMessage (now : TimePoint) (message : list Z) : Cmd unit :=
  onEngineSignals now (processMessage message).

(** [onStartStop], the engine being present; [portSelected] tells whether an
    output port is current. *)
Definition onStartStop (portSelected : bool) (now : TimePoint) : Cmd unit :=
  if portSelected then
    s <- get ;;
    if m_isRunning s then stop true else start true now
  else ret tt.


(** ** Sequences of calls *)

(** A call of a member function or slot of the controller, with the instant
    at which it runs where it reads the clock. *)
Inductive Call : Type :=
| CallSetBPM (bpm : Q)
| CallBlockBPMUpdates (block : bool)
| CallBlockTransportSync (block : bool)
| CallStart (sendStartCommand : bool) (now : TimePoint)
| CallStop (sendStopCommand : bool)
| CallHandleDAWStart (now : TimePoint)
| CallHandleDAWStop
| CallHandleDAWContinue (now : TimePoint)
| CallHandleMIDIClock (now : TimePoint)
| CallHandleSongPositionPointer (positionBeats : Z) (positionQuarterNotes : Q)
| CallOnSyncTick
| CallSyncBPMToDAW (bpm : Z)
| CallUpdateBPMFromDAW (bpm : Q).

Definition call (c : Call) : Cmd unit :=
  match c with
  | CallSetBPM bpm => setBPM bpm
  | CallBlockBPMUpdates block => blockBPMUpdates block
  | CallBlockTransportSync block => blockTransportSync block
  | CallStart sendStartCommand now => start sendStartCommand now
  | CallStop sendStopCommand => stop sendStopCommand
  | CallHandleDAWStart now => handleDAWStart now
  | CallHandleDAWStop => handleDAWStop
  | CallHandleDAWContinue now => handleDAWContinue now
  | CallHandleMIDIClock now => handleMIDIClock now
  | CallHandleSongPositionPointer positionBeats positionQuarterNotes =>
      handleSongPositionPointer positionBeats positionQuarterNotes
  | CallOnSyncTick => onSyncTick
  | CallSyncBPMToDAW bpm => syncBPMToDAW bpm
  | CallUpdateBPMFromDAW bpm => updateBPMFromDAW bpm
  end.

Fixpoint calls (cs : list Call) : Cmd unit :=
  match cs with
  | [] => ret tt
  | c :: rest => call c ;; calls rest
  end.

(** What every sequence of calls keeps true of the controller. *)
Record wellFormed (s : SyncController) : Prop := {
  wf_bpm : (20 <= m_currentBPM s <= 300)%Q;
  wf_window : 0 <= s_clockWindow s <= 24;
  wf_tick : 0 <= m_clockCount s;
  wf_timer :
    forall t, m_syncTimer s = Some t ->
              interval t = Qtrunc ((60 / m_currentBPM s / 24) * 1000)
              /\ (isActive t = true -> m_isRunning s = true);
  wf_note : m_noteOn s = true -> m_engine s = true;
  wf_voice :
    m_midiChannel s = 0 /\ m_midiNote s = 60 /\ m_midiVelocity s = 100
}.

(** The status bytes the controller sends: Clock, Start and Stop. *)
Definition knownStatus (e : Event) : Prop :=
  match e with
  | SendSystemMessage status =>
      status = MIDI_REALTIME_CLOCK \/ status = MIDI_REALTIME_START
      \/ status = MIDI_REALTIME_STOP
  | _ => True
  end.

(** An event that is neither a call on the engine nor [beatSent]. *)
Definition silent (e : Event) : Prop :=
  match e with
  | SendNoteOn _ _ _ | SendNoteOff _ _ _ | SendSystemMessage _ | BeatSent _ =>
      False
  | _ => True
  end.

(** No system realtime message is sent. *)
Definition noSystemMessage (e : Event) : Prop :=
  match e with
  | SendSystemMessage _ => False
  | _ => True
  end.

(** The position block of [onSyncTick]. *)
Definition tickPosition (s : SyncController) : SyncController :=
  if m_isRunning s then
    set_currentPositionBeats
      (Qtrunc (inject_Z (m_clockCount s + 1)
               / inject_Z CLOCKS_PER_QUARTER_NOTE * 4))
      (set_currentPositionQuarterNotes
         (inject_Z (m_clockCount s + 1) / inject_Z CLOCKS_PER_QUARTER_NOTE)
         (set_clockCount (m_clockCount s + 1) s))
  else s.

(** What a controller in state [s] can send and signal: calls on the engine
    only when there is one, notes on the configured channel and pitch, and
    the three realtime statuses. *)
Definition controllerEvent (s : SyncController) (e : Event) : Prop :=
  match e with
  | SendNoteOn channel note velocity =>
      m_engine s = true /\ channel = m_midiChannel s
      /\ note = m_midiNote s /\ velocity = m_midiVelocity s
  | SendNoteOff channel note velocity =>
      m_engine s = true /\ channel = m_midiChannel s
      /\ note = m_midiNote s /\ velocity = 0
  | SendSystemMessage status =>
      m_engine s = true
      /\ (status = MIDI_REALTIME_CLOCK \/ status = MIDI_REALTIME_START
          \/ status = MIDI_REALTIME_STOP)
  | BeatSent _ => m_engine s = true
  | _ => True
  end.

(** The five messages of the controller: Clock, Start, Stop, and note-on and
    note-off of middle C on channel 1. *)
Definition controllerMessages : list (list Z) :=
  [[248]; [250]; [252]; [144; 60; 100]; [128; 60; 0]].

(** Inbound messages, each taken from the queue at its instant. *)
Fixpoint receiveMessages (ms : list (TimePoint * list Z)) : Cmd unit :=
  match ms with
  | [] => ret tt
  | (now, message) :: rest =>
      receiveMessage now message ;; receiveMessages rest
  end.

(** ** Running as master *)





(** ** [MidiEngine]: the output port *)

(** The output side of the engine. RtMidi is seen through what the code
    observes of it: whether the [RtMidiOut] object exists, and whether its
    port is open. *)
Record MidiOutput : Type := mkOutput {
  m_rtMidiOut : bool;
  isPortOpen : bool;
  m_availableOutputPorts : list String.string;
  m_currentOutputPortIndex : Z;
  m_currentOutputPortName : String.string
}.

(** The search loop of [openOutputPort]: the first index, counted from [i],
    of a port named [portName], or [-1]. *)
Fixpoint findPortIndexFrom (i : Z) (ports : list String.string)
    (portName : String.string) : Z :=
  match ports with
  | [] => -1
  | port :: rest =>
      if String.eqb port portName then i
      else findPortIndexFrom (i + 1) rest portName
  end.

Definition findPortIndex (ports : list String.string)
    (portName : String.string) : Z :=
  findPortIndexFrom 0 ports portName.

(** [openOutputPort(portName)]; [opens] tells whether [RtMidiOut::openPort]
    succeeds. Returns the result, the engine and the names signalled with
    [outputPortChanged]. *)
Definition openOutputPort (portName : String.string) (opens : bool)
    (e : MidiOutput) : bool * MidiOutput * list String.string :=
  if negb (m_rtMidiOut e) then (false, e, [])
  else
    let closed :=
      mkOutput (m_rtMidiOut e) false (m_availableOutputPorts e)
               (m_currentOutputPortIndex e) (m_currentOutputPortName e) in
    let portIndex := findPortIndex (m_availableOutputPorts e) portName in
    if portIndex <? 0 then (false, closed, [])
    else if opens then
      (true,
       mkOutput (m_rtMidiOut e) true (m_availableOutputPorts e)
                portIndex portName,
       [portName])
    else
      (false,
       mkOutput (m_rtMidiOut e) false (m_availableOutputPorts e)
                (-1) String.EmptyString,
       []).

(** [closeOutputPort()] *)
Definition closeOutputPort (e : MidiOutput) : MidiOutput :=
  if m_rtMidiOut e && isPortOpen e then
    mkOutput (m_rtMidiOut e) false (m_availableOutputPorts e)
             (-1) String.EmptyString
  else e.

(** [currentOutputPort()] *)
Definition currentOutputPort (e : MidiOutput) : String.string :=
  m_currentOutputPortName e.

(** The test of the four send functions:
    [m_rtMidiOut && m_rtMidiOut->isPortOpen()]. *)
Definition canSend (e : MidiOutput) : bool := m_rtMidiOut e && isPortOpen e.

(** [MidiMasterWindow::onPortChanged(index)], [ports] being the window's
    copy of the list of output ports. *)
Definition onPortChanged (index : Z) (ports : list String.string)
    (opens : bool) (e : MidiOutput) : MidiOutput * list String.string :=
  if (0 <=? index) && (index <? Z.of_nat (length ports)) then
    let portName := nth (Z.to_nat index) ports String.EmptyString in
    let '(_, e', signals) := openOutputPort portName opens e in
    (e', signals)
  else (e, []).

(** The test of [onStartStop] on the current output port. *)
Definition portSelected (e : MidiOutput) : bool :=
  negb (String.eqb (currentOutputPort e) String.EmptyString).

(** ** [MidiMasterWindow::findAutoSelectPort] *)

Section AutoSelect.

(** [port.contains(pattern, Qt::CaseInsensitive)] and [port.toInt(&ok)]. *)
Variable contains : String.string -> String.string -> bool.
Variable toInt : String.string -> option Z.

Definition isNetworkName (port : String.string) : bool :=
  contains port "Network"%string || contains port "rtpMIDI"%string
  || contains port "rtp.MIDI"%string.

Definition isNetworkPort (port : String.string) : bool :=
  match toInt port with
  | Some portNum => (21928 <=? portNum) && (portNum <=? 21948)
  | None => false
  end
  || isNetworkName port.

Definition isLoopbackPort (port : String.string) : bool :=
  contains port "Loopback"%string
  && negb (contains port "Network"%string)
  && negb (contains port "rtpMIDI"%string)
  && negb (contains port "rtp.MIDI"%string).

Definition findAutoSelectPort (ports : list String.string)
  : String.string :=
  match find (fun port => contains port "IAC"%string) ports with
  | Some port => port
  | None =>
      match find (fun port => contains port "Virtual"%string) ports with
      | Some port => port
      | None =>
          match find isLoopbackPort ports with
          | Some port => port
          | None =>
              match filter (fun port => negb (isNetworkPort port)) ports with
              | port :: _ => port
              | [] => String.EmptyString
              end
          end
      end
  end.

End AutoSelect.

(** A controller with its drift and prediction bookkeeping blanked: the
    clocks counted since the last boundary, the predicted next boundary,
    the pending flag, and the instants of the last clock and of the last
    start. *)
Definition forgetBookkeeping (s : SyncController) : SyncController :=
  set_clocksSinceLastBoundary 0
    (set_predictedNextBoundaryQuarterNotes 0
       (set_boundaryPending false
          (set_lastClockMessageTime 0 (set_startTime 0 s)))).

(** * Properties *)

(** Linear integer arithmetic with division and remainder by constants. *)
Ltac zlia :=
  repeat match goal with x := _ |- _ => clearbody x end;
  Z.div_mod_to_equations; lia.

(** ** Rational comparisons *)

Lemma Qltb_lt (x y : Q) : Qltb x y = true <-> (x < y)%Q.
Proof.
  unfold Qltb. rewrite negb_true_iff.
  destruct (Qle_bool y x) eqn:E.
  - apply Qle_bool_iff in E. split; [discriminate | intro H; lra].
  - split; [intros _ | reflexivity].
    destruct (Qlt_le_dec x y) as [H | H]; [exact H |].
    apply Qle_bool_iff in H. congruence.
Qed.

Lemma Qltb_ge (x y : Q) : Qltb x y = false <-> (y <= x)%Q.
Proof.
  unfold Qltb. rewrite negb_false_iff. apply Qle_bool_iff.
Qed.

Lemma Qle_bool_gt (x y : Q) : Qle_bool x y = false <-> (y < x)%Q.
Proof.
  rewrite <- Qltb_lt. unfold Qltb.
  destruct (Qle_bool x y); simpl; split; congruence.
Qed.

Lemma Qfloor_inject_le (n : Z) (q : Q) : (inject_Z n <= q)%Q <-> n <= Qfloor q.
Proof.
  split; intro H.
  - rewrite <- (Qfloor_Z n). apply Qfloor_resp_le. exact H.
  - apply Qle_trans with (inject_Z (Qfloor q)).
    + rewrite <- Zle_Qle. exact H.
    + apply Qfloor_le.
Qed.

(** ** Positions that come from a tick count *)

Section TickPosition.

Variable tick : Z.

Let pos : Q := (inject_Z tick / inject_Z CLOCKS_PER_QUARTER_NOTE)%Q.

Lemma currentBoundary_tick : currentBoundary pos = tick / 96.
Proof.
  unfold currentBoundary, pos, Qdiv, Qmult, Qinv, Qfloor. simpl.
  rewrite !Z.mul_1_r. reflexivity.
Qed.

Lemma positionInBoundary_tick :
  (positionInBoundary pos == inject_Z (tick mod 96) / 24)%Q.
Proof.
  unfold positionInBoundary. rewrite currentBoundary_tick.
  unfold pos, CLOCKS_PER_QUARTER_NOTE.
  rewrite (Z.mod_eq tick 96) by lia.
  unfold Z.sub. rewrite inject_Z_plus, inject_Z_opp, inject_Z_mult.
  change (inject_Z 96) with 96%Q. change (inject_Z 24) with 24%Q. field.
Qed.

Lemma ticksToNextBoundary_tick :
  (ticksToNextBoundary pos == inject_Z (96 - tick mod 96))%Q.
Proof.
  unfold ticksToNextBoundary. rewrite positionInBoundary_tick.
  unfold Z.sub. rewrite inject_Z_plus, inject_Z_opp.
  unfold CLOCKS_PER_QUARTER_NOTE.
  change (inject_Z 96) with 96%Q. change (inject_Z 24) with 24%Q. field.
Qed.

Lemma position_lt_1_tick : Qltb pos 1 = (tick <? 24).
Proof.
  assert (E : (pos < 1)%Q <-> tick < 24).
  { unfold pos, CLOCKS_PER_QUARTER_NOTE. change (inject_Z 24) with 24%Q.
    rewrite (Zlt_Qlt tick 24). change (inject_Z 24) with 24%Q.
    split; intro H.
    - apply Qmult_lt_r with (z := (/ 24)%Q); [reflexivity |].
      setoid_replace (24 * / 24)%Q with 1%Q by reflexivity. exact H.
    - apply Qmult_lt_r with (z := (/ 24)%Q) in H; [| reflexivity].
      setoid_replace (24 * / 24)%Q with 1%Q in H by reflexivity. exact H. }
  destruct (Qltb pos 1) eqn:A, (tick <? 24) eqn:B; try reflexivity.
  - apply Qltb_lt, E in A. apply Z.ltb_ge in B. lia.
  - apply Z.ltb_lt, E, Qltb_lt in B. congruence.
Qed.

End TickPosition.

(** ** The advance window *)

Lemma safeBPM_range (bpm : Q) : (20 <= safeBPM bpm <= 300)%Q.
Proof.
  unfold safeBPM.
  destruct (Qltb bpm 20) eqn:A; simpl; [lra |].
  destruct (Qltb 300 bpm) eqn:B; simpl; [lra |].
  apply Qltb_ge in A. apply Qltb_ge in B. lra.
Qed.


Lemma advance_raw (bpm : Q) :
  (20 <= bpm)%Q ->
  (EMISSION_ADVANCE_MS / ((60000 / bpm) / inject_Z CLOCKS_PER_QUARTER_NOTE)
   == (7 # 250) * bpm)%Q.
Proof.
  intro H. unfold EMISSION_ADVANCE_MS, CLOCKS_PER_QUARTER_NOTE.
  change (inject_Z 24) with 24%Q. field. lra.
Qed.

Lemma emissionAdvanceTicks_range (bpm : Q) :
  (20 <= bpm <= 300)%Q ->
  (3 # 2 <= emissionAdvanceTicks bpm <= 42 # 5)%Q.
Proof.
  intros [H1 H2]. unfold emissionAdvanceTicks.
  destruct (Qltb _ (3 # 2)) eqn:A; [lra |].
  apply Qltb_ge in A. split; [exact A |].
  rewrite advance_raw by exact H1. lra.
Qed.


Lemma leadTicks_range (bpm : Q) : 1 <= leadTicks bpm <= 8.
Proof.
  unfold leadTicks.
  destruct (emissionAdvanceTicks_range (safeBPM bpm) (safeBPM_range bpm))
    as [H1 H2].
  split.
  - apply Qfloor_inject_le. change (inject_Z 1) with 1%Q. lra.
  - assert (H : Qfloor (emissionAdvanceTicks (safeBPM bpm)) < 9); [| lia].
    apply Z.lt_nge. intro C. apply Qfloor_inject_le in C.
    change (inject_Z 9) with 9%Q in C. lra.
Qed.

(** ** The decisions at a tick position *)

Section TickDecisions.

Variable tick : Z.
Variable s : SyncController.

Let pos : Q := (inject_Z tick / inject_Z CLOCKS_PER_QUARTER_NOTE)%Q.

Lemma isFirstDownbeat_tick :
  isFirstDownbeat pos s =
  (tick / 96 =? 0) && (m_lastEmittedWholeNote s <? 0) && (tick <? 24).
Proof.
  unfold isFirstDownbeat, pos.
  rewrite currentBoundary_tick, position_lt_1_tick. reflexivity.
Qed.

Lemma withinAdvance_tick :
  Qle_bool (ticksToNextBoundary pos)
           (emissionAdvanceTicks (safeBPM (m_currentBPM s)))
  = (96 - tick mod 96 <=? leadTicks (m_currentBPM s)).
Proof.
  unfold pos. rewrite ticksToNextBoundary_tick.
  destruct (Qle_bool _ _) eqn:A; symmetry.
  - apply Z.leb_le. apply Qle_bool_iff, Qfloor_inject_le in A. exact A.
  - apply Z.leb_gt. apply Z.lt_nge. intro C.
    apply Qfloor_inject_le, Qle_bool_iff in C. unfold leadTicks in A.
    congruence.
Qed.

Lemma shouldEmit_tick :
  shouldEmit pos s =
  (tick / 96 =? 0) && (m_lastEmittedWholeNote s <? 0) && (tick <? 24)
  || (tick / 96 + 1 >? m_lastEmittedWholeNote s)
     && (96 - tick mod 96 <=? leadTicks (m_currentBPM s)).
Proof.
  unfold shouldEmit. fold pos.
  rewrite isFirstDownbeat_tick, withinAdvance_tick.
  unfold nextBoundary, pos. rewrite currentBoundary_tick. reflexivity.
Qed.

Lemma boundaryToEmit_tick :
  boundaryToEmit pos s =
  if (tick / 96 =? 0) && (m_lastEmittedWholeNote s <? 0) && (tick <? 24)
  then tick / 96 else tick / 96 + 1.
Proof.
  unfold boundaryToEmit. fold pos. rewrite isFirstDownbeat_tick.
  unfold nextBoundary, pos. rewrite currentBoundary_tick. reflexivity.
Qed.

Lemma noteShouldBeOff_tick :
  noteShouldBeOff pos s =
  m_noteOn s && (0 <? tick mod 96) && (tick mod 96 <? 10).
Proof.
  unfold noteShouldBeOff.
  change (pos - inject_Z (currentBoundary pos) * 4)%Q
    with (positionInBoundary pos).
  assert (E := positionInBoundary_tick tick). fold pos in E.
  unfold Qdiv in E. change (/ 24)%Q with (1 # 24)%Q in E.
  assert (A : Qltb 0 (positionInBoundary pos) = (0 <? tick mod 96)).
  { destruct (Qltb 0 _) eqn:A, (0 <? tick mod 96) eqn:B; try reflexivity.
    - apply Qltb_lt in A. apply Z.ltb_ge in B. rewrite E in A.
      rewrite Zle_Qle in B. change (inject_Z 0) with 0%Q in B. lra.
    - apply Qltb_ge in A. apply Z.ltb_lt in B. rewrite E in A.
      rewrite Zlt_Qlt in B. change (inject_Z 0) with 0%Q in B. lra. }
  assert (B : Qltb (positionInBoundary pos) (2 # 5) = (tick mod 96 <? 10)).
  { destruct (Qltb _ (2 # 5)) eqn:C, (tick mod 96 <? 10) eqn:D;
      try reflexivity.
    - apply Qltb_lt in C. apply Z.ltb_ge in D. rewrite E in C.
      rewrite Zle_Qle in D. change (inject_Z 10) with 10%Q in D. lra.
    - apply Qltb_ge in C. apply Z.ltb_lt in D. rewrite E in C.
      assert (D' : tick mod 96 <= 9) by lia.
      rewrite Zle_Qle in D'. change (inject_Z 9) with 9%Q in D'. lra. }
  rewrite A, B. reflexivity.
Qed.

End TickDecisions.

(** ** What [checkAndEmitWholeNote] does to the state and sends *)

Ltac run_cmd :=
  unfold exec, trace; cbv [bind get modify emit when ret].

Section CheckAndEmit.

Variable pos : Q.
Variable s : SyncController.

Let s' : SyncController := exec (checkAndEmitWholeNote pos) s.

Ltac cae_cases :=
  unfold s', checkAndEmitWholeNote; run_cmd;
  destruct (shouldEmit pos s); unfold noteShouldBeOff; simpl;
  destruct (m_noteOn s) eqn:?; simpl;
  repeat match goal with
         | |- context [Qltb ?a ?b] => destruct (Qltb a b); simpl
         end;
  destruct (m_engine s) eqn:?; simpl; try reflexivity; try assumption.

Lemma cae_lastEmitted :
  m_lastEmittedWholeNote s' =
  if shouldEmit pos s then boundaryToEmit pos s
  else m_lastEmittedWholeNote s.
Proof. cae_cases. Qed.

Lemma cae_noteOn :
  m_noteOn s' =
  if shouldEmit pos s && m_engine s then true
  else m_noteOn s && negb (noteShouldBeOff pos s).
Proof. cae_cases. Qed.


Lemma cae_trace :
  trace (checkAndEmitWholeNote pos) s =
  (if noteShouldBeOff pos s && m_engine s
   then [SendNoteOff (m_midiChannel s) (m_midiNote s) 0] else [])
  ++ (if shouldEmit pos s && m_engine s
      then [SendNoteOn (m_midiChannel s) (m_midiNote s) (m_midiVelocity s);
            BeatSent (boundaryToEmit pos s * 4);
            PositionChanged (m_currentPositionBeats s)
                            (m_currentPositionQuarterNotes s)]
      else []).
Proof. cae_cases. Qed.

Lemma cae_frame :
  m_engine s' = m_engine s /\ m_isRunning s' = m_isRunning s
  /\ m_clockCount s' = m_clockCount s /\ m_currentBPM s' = m_currentBPM s
  /\ m_bpmUpdateBlocked s' = m_bpmUpdateBlocked s
  /\ m_transportSyncBlocked s' = m_transportSyncBlocked s
  /\ s_clockWindow s' = s_clockWindow s
  /\ s_lastClockTime s' = s_lastClockTime s
  /\ m_syncTimer s' = m_syncTimer s
  /\ m_midiChannel s' = m_midiChannel s /\ m_midiNote s' = m_midiNote s
  /\ m_midiVelocity s' = m_midiVelocity s.
Proof. cae_cases; repeat split; assumption. Qed.

End CheckAndEmit.

(** ** The note-on decision at a tick *)

Section NoteOnDecision.

Variable s : SyncController.
Variable tick : Z.

Let last : Z := m_lastEmittedWholeNote s.




End NoteOnDecision.



(** ** [setBPM] *)

Lemma setBPM_in_range (s : SyncController) (bpm : Q) :
  (20 <= bpm <= 300)%Q ->
  setBPM bpm s =
  (tt,
   match m_syncTimer s with
   | Some t =>
       set_syncTimer
         (Some (mkTimer (Qtrunc ((60 / bpm / 24) * 1000)) (isActive t)))
         (set_currentBPM bpm s)
   | None => set_currentBPM bpm s
   end,
   [BpmChanged bpm]).
Proof.
  intros [H1 H2]. unfold setBPM.
  apply Qle_bool_iff in H1. apply Qle_bool_iff in H2. rewrite H1, H2.
  unfold updateSyncTimer, hasTimer. cbv [andb bind get modify emit when ret].
  destruct s as [? [t |] ? ? ? ? ? ? ? ? ? ? ? ? ? ? ? ? ? ? ? ?]; reflexivity.
Qed.

Lemma setBPM_rejected (s : SyncController) (bpm : Q) :
  (bpm < 20)%Q \/ (300 < bpm)%Q -> setBPM bpm s = (tt, s, []).
Proof.
  intro H. unfold setBPM.
  destruct (Qle_bool 20 bpm) eqn:A; [| reflexivity].
  destruct (Qle_bool bpm 300) eqn:B; [| reflexivity].
  apply Qle_bool_iff in A. apply Qle_bool_iff in B. lra.
Qed.

(** C10. A [setBPM(x)] with [x < 20] or [x > 300] does nothing: the state is
    the one before the call, field by field, and no signal is emitted. *)
Theorem setBPM_out_of_range_ignored (s : SyncController) (x : Q) :
  (x < 20)%Q \/ (300 < x)%Q ->
  exec (setBPM x) s = s /\ trace (setBPM x) s = [].
Proof.
  intro H. unfold exec, trace. rewrite setBPM_rejected by exact H.
  split; reflexivity.
Qed.

Lemma setBPM_out_of_range_ignored_witness :
  exec (setBPM 301) newController = newController
  /\ trace (setBPM 301) newController = [].
Proof.
  apply setBPM_out_of_range_ignored. right. reflexivity.
Defined.




(** C9, as the specification states it, fails: two consecutive [setBPM(100)]
    emit two [bpmChanged] signals. *)
Lemma setBPM_twice_notifies_twice :
  length (filter isBpmChanged
            (trace (setBPM 100 ;; setBPM 100) newController))
  <> 1%nat.
Proof. vm_compute. discriminate. Qed.

(** C9, amended. For [x] in [20, 300] every [setBPM(x)] emits one
    [bpmChanged(x)]: two consecutive calls with the same [x] emit exactly two,
    and the second call leaves the state as the first left it. *)
Theorem setBPM_twice (s : SyncController) (x : Q) :
  (20 <= x <= 300)%Q ->
  trace (setBPM x ;; setBPM x) s = [BpmChanged x; BpmChanged x]
  /\ exec (setBPM x ;; setBPM x) s = exec (setBPM x) s.
Proof.
  intro H. unfold exec, trace, bind.
  rewrite (setBPM_in_range s x H).
  rewrite setBPM_in_range by exact H.
  destruct (m_syncTimer s) eqn:T; simpl; rewrite ?T; split; reflexivity.
Qed.

Lemma setBPM_twice_witness :
  trace (setBPM 100 ;; setBPM 100) newController
  = [BpmChanged 100; BpmChanged 100]
  /\ exec (setBPM 100 ;; setBPM 100) newController
     = exec (setBPM 100) newController.
Proof.
  apply setBPM_twice. split; discriminate.
Defined.

(** ** The BPM window *)

Ltac unfold_state :=
  cbv [bind get modify emit when ret exec trace result
       set_syncTimer set_isRunning set_currentBPM set_clockCount
       set_incomingClockCount set_bpmUpdateBlocked set_transportSyncBlocked
       set_currentPositionBeats set_currentPositionQuarterNotes
       set_lastEmittedWholeNote set_noteOn set_s_lastClockTime
       set_s_clockWindow set_lastClockMessageTime
       set_predictedNextBoundaryQuarterNotes set_boundaryPending
       set_clocksSinceLastBoundary set_startTime timerSetActive hasTimer
       m_engine m_syncTimer m_isRunning m_currentBPM m_clockCount
       m_incomingClockCount m_bpmUpdateBlocked m_transportSyncBlocked
       m_currentPositionBeats m_currentPositionQuarterNotes
       m_lastEmittedWholeNote m_midiChannel m_midiNote m_midiVelocity
       m_noteOn s_lastClockTime s_clockWindow m_lastClockMessageTime
       m_predictedNextBoundaryQuarterNotes m_boundaryPending
       m_clocksSinceLastBoundary m_startTime fst snd].

Ltac case_ifs :=
  repeat match goal with
         | |- context [if ?c then _ else _] => destruct c eqn:?
         | |- context [match ?c with Some _ => _ | None => _ end] =>
             destruct c eqn:?
         end.

Section BpmWindow.

Variable t : TimePoint.
Variable s : SyncController.

Let s' : SyncController := exec (bpmWindow t) s.

Lemma bpmWindow_trace : trace (bpmWindow t) s = [].
Proof.
  unfold bpmWindow, updateSyncTimer. destruct s. unfold_state.
  case_ifs; reflexivity.
Qed.

Lemma bpmWindow_frame :
  m_engine s' = m_engine s /\ m_isRunning s' = m_isRunning s
  /\ m_clockCount s' = m_clockCount s
  /\ m_lastEmittedWholeNote s' = m_lastEmittedWholeNote s
  /\ m_noteOn s' = m_noteOn s
  /\ m_bpmUpdateBlocked s' = m_bpmUpdateBlocked s
  /\ m_transportSyncBlocked s' = m_transportSyncBlocked s
  /\ m_clocksSinceLastBoundary s' = m_clocksSinceLastBoundary s
  /\ m_midiChannel s' = m_midiChannel s /\ m_midiNote s' = m_midiNote s
  /\ m_midiVelocity s' = m_midiVelocity s.
Proof.
  unfold s', bpmWindow, updateSyncTimer. destruct s. unfold_state.
  case_ifs; repeat split.
Qed.


Lemma bpmWindow_counting :
  2 <= s_clockWindow s ->
  s_clockWindow s' = s_clockWindow s - 1
  /\ s_lastClockTime s' = s_lastClockTime s
  /\ m_currentBPM s' = m_currentBPM s
  /\ m_syncTimer s' = m_syncTimer s.
Proof.
  unfold s', bpmWindow, updateSyncTimer. destruct s. unfold_state.
  intro H.
  destruct (s_clockWindow0 =? 0) eqn:A; [apply Z.eqb_eq in A; lia |].
  destruct (s_clockWindow0 - 1 =? 0) eqn:B; [apply Z.eqb_eq in B; lia |].
  repeat split.
Qed.

Lemma bpmWindow_opening :
  s_clockWindow s = 0 ->
  s_clockWindow s' = 23
  /\ s_lastClockTime s' = t
  /\ m_currentBPM s' = m_currentBPM s.
Proof.
  unfold s', bpmWindow, updateSyncTimer. destruct s. unfold_state.
  intros ->. cbv [Z.eqb Z.sub Z.add Z.opp Z.pos_sub CLOCKS_PER_QUARTER_NOTE].
  repeat split.
Qed.

Lemma bpmWindow_evaluating :
  s_clockWindow s = 1 ->
  s_clockWindow s' = 24
  /\ s_lastClockTime s' = t
  /\ m_currentBPM s' =
     if bpmAccepted s (elapsedSeconds (s_lastClockTime s) t)
     then (60 / elapsedSeconds (s_lastClockTime s) t)%Q
     else m_currentBPM s.
Proof.
  unfold s', bpmWindow, updateSyncTimer, bpmAccepted. destruct s.
  unfold_state. intros ->. cbv [Z.eqb Z.sub Z.add Z.opp Z.pos_sub].
  case_ifs; repeat split; try discriminate.
Qed.

End BpmWindow.

(** ** One inbound clock while running *)

Lemma cmd_eta {A} (c : Cmd A) (s : SyncController) :
  c s = (result c s, exec c s, trace c s).
Proof. unfold result, exec, trace. destruct (c s) as [[a s1] e]. reflexivity. Qed.

Section ClockStep.

Variable t : TimePoint.
Variable s : SyncController.
Hypothesis running : m_isRunning s = true.

Let pos : Q :=
  (inject_Z (m_clockCount s + 1) / inject_Z CLOCKS_PER_QUARTER_NOTE)%Q.
Let sa : SyncController := exec (clockPosition t) s.

Lemma clockPosition_running :
  result (clockPosition t) s = (true, pos)
  /\ trace (clockPosition t) s = []
  /\ m_clockCount sa = m_clockCount s + 1
  /\ m_clocksSinceLastBoundary sa = m_clocksSinceLastBoundary s + 1
  /\ m_currentPositionQuarterNotes sa = pos
  /\ m_engine sa = m_engine s /\ m_isRunning sa = true
  /\ m_lastEmittedWholeNote sa = m_lastEmittedWholeNote s
  /\ m_noteOn sa = m_noteOn s /\ m_currentBPM sa = m_currentBPM s
  /\ m_bpmUpdateBlocked sa = m_bpmUpdateBlocked s
  /\ s_clockWindow sa = s_clockWindow s
  /\ s_lastClockTime sa = s_lastClockTime s
  /\ m_midiChannel sa = m_midiChannel s /\ m_midiNote sa = m_midiNote s
  /\ m_midiVelocity sa = m_midiVelocity s.
Proof.
  unfold sa, pos, clockPosition. revert running. destruct s. unfold_state.
  intros ->. repeat split.
Qed.

Hypothesis engine : m_engine s = true.

Lemma handleMIDIClock_running :
  exec (handleMIDIClock t) s
  = exec (bpmWindow t) (exec (checkAndEmitWholeNote pos) sa)
  /\ trace (handleMIDIClock t) s
     = trace (checkAndEmitWholeNote pos) sa ++ [ClockTick].
Proof.
  destruct clockPosition_running as (R & T & _ & _ & _ & E & _).
  unfold handleMIDIClock, exec at 1, trace at 1, bind, get.
  rewrite (cmd_eta (clockPosition t) s), R, T. fold sa.
  cbv [fst snd]. rewrite E, engine. cbv [andb when].
  rewrite (cmd_eta (checkAndEmitWholeNote pos) sa).
  rewrite (cmd_eta (bpmWindow t) (exec (checkAndEmitWholeNote pos) sa)).
  rewrite bpmWindow_trace. cbv [emit fst snd].
  rewrite !app_nil_l. split; reflexivity.
Qed.

End ClockStep.

Section ClockTickStep.

Variable t : TimePoint.
Variable s : SyncController.
Hypothesis running : m_isRunning s = true.
Hypothesis engine : m_engine s = true.

Let tick : Z := m_clockCount s + 1.
Let last : Z := m_lastEmittedWholeNote s.
Let s' : SyncController := exec (handleMIDIClock t) s.

(** The two decisions of the scheduler, on integers. *)
Let emitNow : bool :=
  (tick / 96 =? 0) && (last <? 0) && (tick <? 24)
  || (tick / 96 + 1 >? last)
     && (96 - tick mod 96 <=? leadTicks (m_currentBPM s)).
Let boundary : Z :=
  if (tick / 96 =? 0) && (last <? 0) && (tick <? 24)
  then tick / 96 else tick / 96 + 1.
Let noteOff : bool :=
  m_noteOn s && (0 <? tick mod 96) && (tick mod 96 <? 10).

Lemma handleMIDIClock_tick :
  m_isRunning s' = true /\ m_engine s' = true
  /\ m_clockCount s' = tick
  /\ m_lastEmittedWholeNote s' = (if emitNow then boundary else last)
  /\ m_noteOn s' = (if emitNow then true else m_noteOn s && negb noteOff)
  /\ m_bpmUpdateBlocked s' = m_bpmUpdateBlocked s
  /\ trace (handleMIDIClock t) s =
     (if noteOff
      then [SendNoteOff (m_midiChannel s) (m_midiNote s) 0] else [])
     ++ (if emitNow
         then [SendNoteOn (m_midiChannel s) (m_midiNote s)
                          (m_midiVelocity s);
               BeatSent (boundary * 4);
               PositionChanged
                 (Qtrunc (inject_Z tick
                          / inject_Z CLOCKS_PER_QUARTER_NOTE * 4))
                 (inject_Z tick / inject_Z CLOCKS_PER_QUARTER_NOTE)]
         else [])
     ++ [ClockTick].
Proof.
  destruct (handleMIDIClock_running t s running engine) as [X T].
  destruct (clockPosition_running t s running)
    as (_ & _ & C & _ & P & E & R & L & N & B & K & _ & _ & MC & MN & MV).
  set (sa := exec (clockPosition t) s) in *.
  set (pos := (inject_Z (m_clockCount s + 1)
               / inject_Z CLOCKS_PER_QUARTER_NOTE)%Q) in *.
  set (sb := exec (checkAndEmitWholeNote pos) sa) in *.
  destruct (bpmWindow_frame t sb)
    as (F1 & F2 & F3 & F4 & F5 & F6 & _).
  destruct (cae_frame pos sa) as (G1 & G2 & G3 & G4 & G5 & _).
  fold sb in G1, G2, G3, G4, G5.
  assert (SE : shouldEmit pos sa = emitNow).
  { unfold pos. rewrite shouldEmit_tick, L, B. reflexivity. }
  assert (BE : boundaryToEmit pos sa = boundary).
  { unfold pos. rewrite boundaryToEmit_tick, L. reflexivity. }
  assert (NO : noteShouldBeOff pos sa = noteOff).
  { unfold pos. rewrite noteShouldBeOff_tick, N. reflexivity. }
  unfold s'. rewrite X, T, F1, F2, F3, F4, F5, F6, G1, G2, G3, G5.
  unfold sb. rewrite cae_lastEmitted, cae_noteOn, cae_trace.
  rewrite SE, BE, NO, E, R, L, N, C, K, engine, MC, MN, MV, !andb_true_r.
  assert (PB : m_currentPositionBeats sa = Qtrunc (pos * 4)).
  { unfold sa, clockPosition. revert running. clear. destruct s.
    unfold_state. intros ->. reflexivity. }
  rewrite PB, P, <- app_assoc. fold tick. repeat split.
Qed.

End ClockTickStep.

(** ** Observations on traces *)

Lemma countNoteOn_app (a b : list (Z * Event)) :
  countNoteOn (a ++ b) = countNoteOn a + countNoteOn b.
Proof.
  unfold countNoteOn. rewrite filter_app, length_app. lia.
Qed.

Lemma countNoteOff_app (a b : list (Z * Event)) :
  countNoteOff (a ++ b) = countNoteOff a + countNoteOff b.
Proof.
  unfold countNoteOff. rewrite filter_app, length_app. lia.
Qed.

Lemma lastNoteOffTick_app (a b : list (Z * Event)) (last : option Z) :
  lastNoteOffTick last (a ++ b) = lastNoteOffTick (lastNoteOffTick last a) b.
Proof.
  revert last. induction a as [| e a IH]; intro last; simpl;
    [reflexivity | apply IH].
Qed.

Lemma noteOffBeforeOnIn_app (shift : Z) (a b : list (Z * Event))
    (last : option Z) :
  noteOffBeforeOnIn shift last (a ++ b)
  <-> noteOffBeforeOnIn shift last a
      /\ noteOffBeforeOnIn shift (lastNoteOffTick last a) b.
Proof.
  revert last. induction a as [| e a IH]; intro last; simpl.
  - tauto.
  - rewrite IH. tauto.
Qed.

Lemma pendingAfter_app (a b : list (Z * Event)) (pending : option Z) :
  pendingAfter pending (a ++ b) = pendingAfter (pendingAfter pending a) b.
Proof.
  revert pending. induction a as [| e a IH]; intro pending; simpl;
    [reflexivity | apply IH].
Qed.

Lemma noteOffAfterOnIn_app (a b : list (Z * Event)) (pending : option Z) :
  noteOffAfterOnIn pending (a ++ b)
  <-> noteOffAfterOnIn pending a
      /\ noteOffAfterOnIn (pendingAfter pending a) b.
Proof.
  revert pending. induction a as [| e a IH]; intro pending; simpl.
  - tauto.
  - destruct (snd e); rewrite ?IH; tauto.
Qed.

(** The stamped events of one clock, summarised. *)
Section StepEvents.

Variables (tick boundary channel note velocity beats : Z) (qn : Q).
Variables (noteOff emitNow : bool).

Let events : list (Z * Event) :=
  map (pair tick)
    ((if noteOff then [SendNoteOff channel note 0] else [])
     ++ (if emitNow
         then [SendNoteOn channel note velocity; BeatSent (boundary * 4);
               PositionChanged beats qn]
         else [])
     ++ [ClockTick]).

Lemma step_countNoteOn : countNoteOn events = if emitNow then 1 else 0.
Proof. unfold events. destruct noteOff, emitNow; reflexivity. Qed.

Lemma step_countNoteOff : countNoteOff events = if noteOff then 1 else 0.
Proof. unfold events. destruct noteOff, emitNow; reflexivity. Qed.

Lemma step_lastNoteOffTick (last : option Z) :
  lastNoteOffTick last events = if noteOff then Some tick else last.
Proof. unfold events. destruct noteOff, emitNow; reflexivity. Qed.

Lemma step_pendingAfter (pending : option Z) :
  pendingAfter pending events
  = if emitNow then Some boundary else if noteOff then None else pending.
Proof.
  unfold events.
  destruct noteOff, emitNow; cbn [map app pendingAfter snd];
    rewrite ?Z.div_mul by discriminate; reflexivity.
Qed.

Lemma step_noteOffAfterOnIn (pending : option Z) :
  noteOffAfterOnIn pending events
  <-> (noteOff = true ->
       match pending with
       | Some b => 96 * b <= tick < 96 * b + 10
       | None => True
       end)
      /\ (emitNow = true -> (if noteOff then None else pending) = None).
Proof.
  unfold events.
  destruct noteOff, emitNow; cbn [map app noteOffAfterOnIn snd fst];
    intuition discriminate.
Qed.

Lemma step_noteOffBeforeOnIn (shift : Z) (last : option Z) :
  noteOffBeforeOnIn shift last events
  <-> (emitNow = true ->
       forall t0, (if noteOff then Some tick else last) = Some t0 ->
                  96 * (boundary - shift) <= t0
                  < 96 * (boundary - shift) + 10).
Proof.
  unfold events.
  destruct noteOff, emitNow; cbn [map app noteOffBeforeOnIn snd fst isNoteOff];
    rewrite ?Z.div_mul by discriminate.
  - split; [intros (_ & _ & H & _) _ t0 [= <-]; exact H |].
    intro H. repeat split; apply (H eq_refl); reflexivity.
  - split; [discriminate | tauto].
  - destruct last as [t0 |].
    + split; [intros (_ & H & _) _ t1 [= <-]; exact H |].
      intro H. repeat split; apply (H eq_refl); reflexivity.
    + split; [discriminate | tauto].
  - split; [discriminate | tauto].
Qed.

End StepEvents.

(** ** The run invariant *)

Ltac bool_to_Z :=
  repeat match goal with
         | H : (_ >? _) = _ |- _ => rewrite Z.gtb_ltb in H
         | H : (_ <? _) = true |- _ => apply Z.ltb_lt in H
         | H : (_ <? _) = false |- _ => apply Z.ltb_ge in H
         | H : (_ <=? _) = true |- _ => apply Z.leb_le in H
         | H : (_ <=? _) = false |- _ => apply Z.leb_gt in H
         | H : (_ =? _) = true |- _ => apply Z.eqb_eq in H
         | H : (_ =? _) = false |- _ => apply Z.eqb_neq in H
         end.

Lemma releaseTick_window (b : Z) :
  0 <= b -> 96 * b <= releaseTick b < 96 * b + 10.
Proof.
  intro H. unfold releaseTick. destruct (b =? 0) eqn:E; bool_to_Z; lia.
Qed.

Lemma runInv_step (t : TimePoint) (s : SyncController)
    (tr : list (Z * Event)) :
  runInv s tr ->
  runInv (fst (stamp (handleMIDIClock t) s))
         (tr ++ snd (stamp (handleMIDIClock t) s)).
Proof.
  intros [R E T Llo Lhi N On Off LO Ord PD AF].
  destruct (handleMIDIClock_tick t s R E) as (R' & E' & C' & L' & N' & _ & Tr).
  unfold stamp. cbn [fst snd]. rewrite Tr, C'.
  pose proof (leadTicks_range (m_currentBPM s)) as LR.
  set (lead := leadTicks (m_currentBPM s)) in *.
  set (c := m_clockCount s) in *.
  set (last := m_lastEmittedWholeNote s) in *.
  assert (F : (last <? 0) = false) by (apply Z.ltb_ge; zlia).
  rewrite F, andb_false_r, andb_false_l in *.
  change (false || ?b) with b in *.
  set (emitNow := (((c + 1) / 96 + 1 >? last)
                   && (96 - (c + 1) mod 96 <=? lead))) in *.
  set (noteOff := m_noteOn s && (0 <? (c + 1) mod 96)
                  && ((c + 1) mod 96 <? 10)) in *.
  assert (NE : emitNow = true -> noteOff = false).
  { unfold emitNow, noteOff. intro H. apply andb_true_iff in H.
    destruct H as [_ H]. bool_to_Z.
    destruct ((c + 1) mod 96 <? 10) eqn:X; [| apply andb_false_r].
    bool_to_Z. lia. }
  assert (EN : emitNow = true -> m_noteOn s = false).
  { unfold emitNow. intro H. apply andb_true_iff in H.
    destruct H as [H1 H2]. bool_to_Z.
    destruct (m_noteOn s); [| reflexivity].
    exfalso. destruct (proj1 N eq_refl) as [X | [X | X]].
    - zlia.
    - zlia.
    - zlia. }
  constructor.
  - exact R'.
  - exact E'.
  - rewrite C'. lia.
  - rewrite C', L'. unfold emitNow.
    destruct (_ >? _) eqn:A, (_ <=? _) eqn:B; cbn [andb]; bool_to_Z; zlia.
  - rewrite C', L'. unfold emitNow.
    destruct (_ >? _) eqn:A, (_ <=? _) eqn:B; cbn [andb]; bool_to_Z; zlia.
  - rewrite C', L', N'. unfold emitNow, noteOff.
    destruct (m_noteOn s) eqn:NO.
    + pose proof (proj1 N eq_refl) as X.
      destruct (_ >? _) eqn:A, (_ <=? _) eqn:B,
               (0 <? _) eqn:D, (_ <? 10) eqn:G;
        cbn [andb negb]; bool_to_Z;
        (split; [intro H; try discriminate H
                | intro H; try reflexivity; exfalso]); zlia.
    + assert (X : ~ (c = 1 \/ last = c / 96 + 1 \/ c mod 96 = 0)).
      { intro H. apply N in H. discriminate. }
      destruct (_ >? _) eqn:A, (_ <=? _) eqn:B;
        cbn [andb negb]; bool_to_Z;
        (split; [intro H; try discriminate H
                | intro H; try reflexivity; exfalso]); zlia.
  - rewrite countNoteOn_app, step_countNoteOn, On, L'.
    unfold emitNow.
    destruct (_ >? _) eqn:A, (_ <=? _) eqn:B; cbn [andb]; bool_to_Z; zlia.
  - rewrite countNoteOn_app, countNoteOff_app, step_countNoteOn,
      step_countNoteOff, N'.
    destruct emitNow eqn:A.
    + rewrite (NE eq_refl). rewrite (EN eq_refl) in Off. lia.
    + unfold noteOff. destruct (m_noteOn s); cbn [andb negb]; [| lia].
      destruct ((0 <? (c + 1) mod 96) && ((c + 1) mod 96 <? 10));
        cbn [negb]; lia.
  - rewrite lastNoteOffTick_app, LO, step_lastNoteOffTick, C', N', L'.
    replace (c + 1 =? 1) with false by (symmetry; apply Z.eqb_neq; lia).
    destruct emitNow eqn:A.
    + rewrite (NE eq_refl). rewrite (EN eq_refl).
      unfold emitNow in A. apply andb_true_iff in A. destruct A as [A1 A2].
      bool_to_Z.
      destruct (c =? 1) eqn:C1; bool_to_Z; [zlia |].
      f_equal. f_equal. zlia.
    + unfold noteOff. destruct (m_noteOn s) eqn:NO; cbn [andb negb].
      * pose proof (proj1 N eq_refl) as X.
        unfold emitNow in A.
        destruct (0 <? _) eqn:D, (_ <? 10) eqn:G; cbn [andb negb];
          bool_to_Z.
        -- f_equal. unfold releaseTick.
           destruct (last =? 0) eqn:Z0; bool_to_Z; zlia.
        -- destruct (c =? 1) eqn:C1; bool_to_Z; [exfalso; zlia | reflexivity].
        -- destruct (c =? 1) eqn:C1; bool_to_Z; [exfalso; zlia | reflexivity].
        -- destruct (c =? 1) eqn:C1; bool_to_Z; [exfalso; zlia | reflexivity].
      * destruct (c =? 1) eqn:C1; bool_to_Z; [| reflexivity].
        assert (X : false = true) by (apply N; left; exact C1).
        discriminate X.
  - apply noteOffBeforeOnIn_app. split; [exact Ord |].
    apply step_noteOffBeforeOnIn. intros A t0.
    rewrite (NE A), LO, (EN A). unfold emitNow in A.
    apply andb_true_iff in A. destruct A as [A1 A2]. bool_to_Z.
    destruct (c =? 1) eqn:C1; [discriminate |]. intros [= <-].
    replace ((c + 1) / 96 + 1 - 1) with last by zlia.
    apply releaseTick_window. zlia.
  - rewrite pendingAfter_app, PD, step_pendingAfter, N', L'.
    destruct emitNow eqn:A; [reflexivity |].
    unfold noteOff. destruct (m_noteOn s); cbn [andb negb]; [| reflexivity].
    destruct ((0 <? (c + 1) mod 96) && ((c + 1) mod 96 <? 10));
      reflexivity.
  - apply noteOffAfterOnIn_app. split; [exact AF |].
    apply step_noteOffAfterOnIn. rewrite PD. split.
    + unfold noteOff. intro H. apply andb_true_iff in H.
      destruct H as [H H2]. apply andb_true_iff in H.
      destruct H as [NO H1]. rewrite NO in *. bool_to_Z.
      destruct (proj1 N eq_refl) as [X | [X | X]]; zlia.
    + intro A. rewrite (NE A), (EN A). reflexivity.
Qed.


(** ** Runs of clocks *)

Lemma runInv_first (t : TimePoint) (s : SyncController) :
  freshRun s ->
  runInv (fst (stamp (handleMIDIClock t) s))
         (snd (stamp (handleMIDIClock t) s)).
Proof.
  intros (R & E & C & L & N).
  destruct (handleMIDIClock_tick t s R E) as (R' & E' & C' & L' & N' & _ & Tr).
  unfold stamp. cbn [fst snd]. rewrite Tr, C'.
  rewrite C, L, N in *. change (0 + 1) with 1 in *.
  pose proof (leadTicks_range (m_currentBPM s)) as LR.
  change (1 / 96) with 0 in *. change (1 mod 96) with 1 in *.
  change (1 <? 24) with true in *. change (-1 <? 0) with true in *.
  cbn [Z.eqb andb orb negb] in *.
  constructor; rewrite ?C', ?L', ?N'; try reflexivity; try assumption.
  - split; [intros _; left; reflexivity | reflexivity].
  - cbn. tauto.
  - cbn. tauto.
Qed.

Lemma clockRun_runInv (ts : list TimePoint) :
  forall (s : SyncController) (tr : list (Z * Event)),
    runInv s tr ->
    runInv (fst (clockRun ts s)) (tr ++ snd (clockRun ts s)).
Proof.
  induction ts as [| t ts IH]; intros s tr H; cbn [clockRun].
  - cbn [fst snd]. rewrite app_nil_r. exact H.
  - pose proof (runInv_step t s tr H) as H1.
    destruct (stamp (handleMIDIClock t) s) as [s1 tr1]. cbn [fst snd] in H1.
    specialize (IH s1 (tr ++ tr1) H1).
    destruct (clockRun ts s1) as [s2 tr2]. cbn [fst snd] in *.
    rewrite app_assoc. exact IH.
Qed.

Lemma clockRun_fresh (t : TimePoint) (ts : list TimePoint)
    (s : SyncController) :
  freshRun s ->
  runInv (fst (clockRun (t :: ts) s)) (snd (clockRun (t :: ts) s)).
Proof.
  intro H. pose proof (runInv_first t s H) as H1. cbn [clockRun].
  destruct (stamp (handleMIDIClock t) s) as [s1 tr1]. cbn [fst snd] in H1.
  pose proof (clockRun_runInv ts s1 tr1 H1) as H2.
  destruct (clockRun ts s1) as [s2 tr2]. exact H2.
Qed.



(** ** Inbound Start and Stop *)



(** ** Note counts of a run *)




(** ** The note-off decision and where note-offs fall *)

Lemma noteOffBeforeOnIn_sound (shift : Z) (tr : list (Z * Event)) :
  noteOffBeforeOnIn shift None tr -> noteOffBeforeOn shift tr.
Proof.
  intros H pre tick q post t0 -> L.
  apply noteOffBeforeOnIn_app in H. destruct H as [_ H].
  cbn [noteOffBeforeOnIn snd] in H. destruct H as [H _].
  rewrite L in H. exact H.
Qed.

Lemma noteOffAfterOnIn_next (post : list (Z * Event)) :
  forall b t0 : Z,
    noteOffAfterOnIn (Some b) post ->
    nextNoteOffTick post = Some t0 ->
    96 * b <= t0 < 96 * b + 10.
Proof.
  induction post as [| [tk ev] post IH]; intros b t0 H N;
    [discriminate |].
  destruct ev; cbn [noteOffAfterOnIn nextNoteOffTick isNoteOff snd fst] in *;
    try (apply (IH b t0 H N)).
  - destruct H as [H _]. injection N as <-. exact H.
  - destruct H as [H _]. discriminate.
Qed.

Lemma noteOffAfterOnIn_sound (tr : list (Z * Event)) :
  noteOffAfterOnIn None tr -> noteOffAfterOn tr.
Proof.
  intros H pre tick q post t0 -> N.
  apply noteOffAfterOnIn_app in H. destruct H as [_ H].
  cbn [noteOffAfterOnIn snd] in H. destruct H as [_ H].
  exact (noteOffAfterOnIn_next post _ _ H N).
Qed.

(** C6, as the specification states it, fails in its second part: in a run
    of 93 clocks at 120 BPM the note-on of boundary 1 is sent at tick 93 and
    the note-off before it was sent at tick 2, outside [[96, 106)]. *)
Lemma note_off_before_boundary_1_is_at_tick_2 :
  ~ noteOffBeforeOn 0
      (snd (clockRun (clockTimes 93 period120) startedController)).
Proof.
  intro H.
  specialize (H (firstn 97 (snd (clockRun (clockTimes 93 period120)
                                   startedController)))
                93 4
                (skipn 98 (snd (clockRun (clockTimes 93 period120)
                                  startedController)))
                2).
  assert (X : 96 * (4 / 4 - 0) <= 2 < 96 * (4 / 4 - 0) + 10).
  { apply H; vm_compute; reflexivity. }
  vm_compute in X. destruct X as [X _]. apply X. reflexivity.
Qed.

Lemma noteShouldBeOff_iff (pos : Q) (s : SyncController) :
  noteShouldBeOff pos s = true
  <-> m_noteOn s = true
      /\ (0 < pos - 4 * inject_Z (Qfloor (pos / 4)))%Q
      /\ (pos - 4 * inject_Z (Qfloor (pos / 4)) < 2 # 5)%Q.
Proof.
  unfold noteShouldBeOff, currentBoundary.
  rewrite !andb_true_iff, !Qltb_lt.
  setoid_replace (pos - 4 * inject_Z (Qfloor (pos / 4)))%Q
    with (pos - inject_Z (Qfloor (pos / 4)) * 4)%Q by ring.
  tauto.
Qed.

(** C6, amended.  First part, as stated: at a tick, with the engine present,
    [checkAndEmitWholeNote] sends note-off(channel, note, 0) exactly when
    [m_noteOn] is set and
    [0 < positionInCurrent < 0.4], where
    [positionInCurrent = quarter_notes - 4 * floor(quarter_notes / 4)]; it
    then clears [m_noteOn], which stays cleared unless the same call sends a
    note-on; such a tick lies in [[96 c + 1, 96 c + 10)] for its own whole
    note [c = tick / 96].  Second part, amended: in a run of clocks from a
    fresh start, the note-off that follows the note-on of boundary [b] lies
    in [[96 b, 96 b + 10)], and the note-off that precedes it lies in
    [[96 (b - 1), 96 (b - 1) + 10)]: it releases the note of boundary
    [b - 1], the note-on of [b] being sent before tick [96 b]. *)
Theorem note_off_decision_and_window :
  (forall (s : SyncController) (tick : Z),
      m_engine s = true ->
      let pos := (inject_Z tick / 24)%Q in
      let positionInCurrent := (pos - 4 * inject_Z (Qfloor (pos / 4)))%Q in
      let release :=
        m_noteOn s = true
        /\ (0 < positionInCurrent)%Q /\ (positionInCurrent < 2 # 5)%Q in
      let s' := exec (checkAndEmitWholeNote pos) s in
      let tr := trace (checkAndEmitWholeNote pos) s in
      (In (SendNoteOff (m_midiChannel s) (m_midiNote s) 0) tr <-> release)
      /\ (sendsNoteOff tr <-> release)
      /\ (~ sendsNoteOn tr ->
          (m_noteOn s = true /\ m_noteOn s' = false <-> release))
      /\ (release -> 96 * (tick / 96) + 1 <= tick < 96 * (tick / 96) + 10))
  /\ (forall (ts : list TimePoint) (s : SyncController),
         freshRun s ->
         noteOffAfterOn (snd (clockRun ts s))
         /\ noteOffBeforeOn 1 (snd (clockRun ts s))).
Proof.
  split.
  - intros s tick E pos positionInCurrent release s' tr.
    pose proof (noteShouldBeOff_iff pos s) as RI.
    fold positionInCurrent in RI. fold release in RI.
    assert (T := cae_trace pos s). assert (N := cae_noteOn pos s).
    fold s' in N. fold tr in T. rewrite E, !andb_true_r in T, N.
    assert (TK : release -> 96 * (tick / 96) + 1 <= tick
                            < 96 * (tick / 96) + 10).
    { intro H. apply RI in H.
      change pos with (inject_Z tick / inject_Z CLOCKS_PER_QUARTER_NOTE)%Q
        in H.
      rewrite noteShouldBeOff_tick, !andb_true_iff in H.
      destruct H as [[_ H1] H2]. bool_to_Z. zlia. }
    assert (ON : shouldEmit pos s = true -> sendsNoteOn tr).
    { intro H. rewrite T, H. do 3 eexists. apply in_or_app. right. left.
      reflexivity. }
    destruct (noteShouldBeOff pos s) eqn:NO.
    + assert (RL : release) by (apply RI; reflexivity).
      assert (I : In (SendNoteOff (m_midiChannel s) (m_midiNote s) 0) tr).
      { rewrite T. left. reflexivity. }
      split; [tauto |]. split; [| split; [| exact TK]].
      * split; [tauto |]. intros _. do 3 eexists. exact I.
      * intro NS. split; [tauto |]. intros _.
        split; [exact (proj1 RL) |].
        destruct (shouldEmit pos s); [exfalso; tauto |].
        rewrite N. rewrite (proj1 RL). reflexivity.
    + assert (NR : ~ release) by (intro H; apply RI in H; discriminate).
      assert (I : forall c n v, ~ In (SendNoteOff c n v) tr).
      { intros c n v. rewrite T. cbn [app].
        destruct (shouldEmit pos s); cbn [In]; [| tauto].
        intros [H | [H | [H | []]]]; discriminate. }
      split; [| split; [| split; [| exact TK]]].
      * split; [| tauto]. intro H. exfalso. eapply I, H.
      * split; [| tauto]. intros (c & n & v & H). exfalso. eapply I, H.
      * intro NS. split; [| tauto]. intros [H1 H2]. exfalso.
        destruct (shouldEmit pos s); [tauto |].
        rewrite N, H1 in H2. discriminate.
  - intros ts s FR.
    destruct ts as [| t ts'].
    + split; [apply noteOffAfterOnIn_sound | apply noteOffBeforeOnIn_sound];
        exact I.
    + pose proof (clockRun_fresh t ts' s FR) as INV. split.
      * apply noteOffAfterOnIn_sound, (inv_after _ _ INV).
      * apply noteOffBeforeOnIn_sound, (inv_order _ _ INV).
Qed.

Lemma note_off_decision_and_window_witness :
  noteOffAfterOn
    (snd (clockRun (clockTimes 100 period120) startedController))
  /\ noteOffBeforeOn 1
       (snd (clockRun (clockTimes 100 period120) startedController)).
Proof.
  apply (proj2 note_off_decision_and_window).
  repeat split; reflexivity.
Defined.

(** ** Song Position Pointer *)


Section SongPosition.

Variable s : SyncController.
Variable positionBeats : Z.
Variable positionQuarterNotes : Q.
Hypothesis beats_nonneg : 0 <= positionBeats.

Let s1 : SyncController :=
  exec (sppUpdatePosition positionBeats positionQuarterNotes) s.





End SongPosition.

(** C3: the code at Song Position Pointer 16 (message [F2 10 00], quarter
    note 4).  The tick counter is set to [16 * 4 = 64], not to [16 * 6 = 96],
    while the stored quarter-note position is 4: recomputed as [tick / 24] the
    position is [64 / 24], not [16 / 4]. *)
Theorem spp_16_sets_tick_64 :
  let s' := exec (receiveSongPositionPointer 16 0) newController in
  m_clockCount s' = 64
  /\ m_clockCount s' <> 16 * 6
  /\ (m_currentPositionQuarterNotes s' == 4)%Q
  /\ ~ (inject_Z (m_clockCount s') / 24 == inject_Z 16 / 4)%Q.
Proof.
  vm_compute. repeat split; discriminate.
Qed.


(** A backwards seek to the first sixteenth while running: the critical
    section rebases to -1 and the scheduler, run next, emits boundary 0. *)
Example spp_back_to_first_sixteenth :
  m_lastEmittedWholeNote (exec (sppUpdatePosition 1 (1 # 4)) atQuarterNote10)
  = -1
  /\ m_lastEmittedWholeNote
       (exec (handleSongPositionPointer 1 (1 # 4)) atQuarterNote10)
     = 0.
Proof. vm_compute. split; reflexivity. Qed.


(** ** The BPM estimator over a window of clocks *)

(** The fields the estimator reads and writes, before [bpmWindow] runs inside
    [handleMIDIClock]: they are those of the state the handler started in. *)
Lemma handleMIDIClock_window (t : TimePoint) (s : SyncController) :
  exists m : SyncController,
    exec (handleMIDIClock t) s = exec (bpmWindow t) m
    /\ s_clockWindow m = s_clockWindow s
    /\ s_lastClockTime m = s_lastClockTime s
    /\ m_currentBPM m = m_currentBPM s
    /\ m_bpmUpdateBlocked m = m_bpmUpdateBlocked s.
Proof.
  set (sa := exec (clockPosition t) s).
  assert (A : s_clockWindow sa = s_clockWindow s
              /\ s_lastClockTime sa = s_lastClockTime s
              /\ m_currentBPM sa = m_currentBPM s
              /\ m_bpmUpdateBlocked sa = m_bpmUpdateBlocked s
              /\ trace (clockPosition t) s = []).
  { unfold sa, clockPosition. destruct s. unfold_state.
    destruct m_isRunning0; repeat split. }
  destruct A as (A1 & A2 & A3 & A4 & A5).
  unfold handleMIDIClock, exec at 1, bind, get.
  rewrite (cmd_eta (clockPosition t) s). fold sa.
  destruct (fst (result (clockPosition t) s) && m_engine sa); cbv [when].
  - set (pos := snd (result (clockPosition t) s)).
    rewrite (cmd_eta (checkAndEmitWholeNote pos) sa).
    set (sb := exec (checkAndEmitWholeNote pos) sa).
    rewrite (cmd_eta (bpmWindow t) sb). cbv [emit fst snd].
    exists sb.
    destruct (cae_frame pos sa) as (_ & _ & _ & G4 & G5 & _ & G7 & G8 & _).
    fold sb in G4, G5, G7, G8.
    repeat split; congruence.
  - cbv [ret]. rewrite (cmd_eta (bpmWindow t) sa). cbv [emit fst snd].
    exists sa. repeat split; assumption.
Qed.

(** Clocks inside the window only count down. *)
Lemma clockRun_counting (ts : list TimePoint) :
  forall s : SyncController,
    Z.of_nat (length ts) < s_clockWindow s ->
    let s' := fst (clockRun ts s) in
    s_clockWindow s' = s_clockWindow s - Z.of_nat (length ts)
    /\ s_lastClockTime s' = s_lastClockTime s
    /\ m_currentBPM s' = m_currentBPM s
    /\ m_bpmUpdateBlocked s' = m_bpmUpdateBlocked s.
Proof.
  induction ts as [| t ts IH]; intros s H; cbn [clockRun].
  - cbn [fst length]. rewrite Z.sub_0_r. repeat split.
  - cbn [length] in H. unfold stamp.
    destruct (handleMIDIClock_window t s) as (m & X & M1 & M2 & M3 & M4).
    destruct (bpmWindow_counting t m) as (W1 & W2 & W3 & _); [lia |].
    destruct (bpmWindow_frame t m) as (_ & _ & _ & _ & _ & W4 & _).
    rewrite <- X in W1, W2, W3, W4.
    specialize (IH (exec (handleMIDIClock t) s)).
    destruct (clockRun ts (exec (handleMIDIClock t) s)) as [s2 tr2].
    cbn [fst] in *.
    destruct IH as (I1 & I2 & I3 & I4); [lia |].
    rewrite I1, I2, I3, I4, W1, W2, W3, W4, M1, M2, M3, M4.
    cbn [length]. repeat split. lia.
Qed.



(** The first window after a start ([s_clockWindow = 0]) opens at the first
    clock and is evaluated at the 24th, over the time between these two. *)
Lemma bpm_estimator_first_window
    (s : SyncController) (t1 : TimePoint) (ts : list TimePoint)
    (t : TimePoint) :
  s_clockWindow s = 0 -> length ts = 22%nat ->
  let s23 := fst (clockRun (t1 :: ts) s) in
  let s24 := exec (handleMIDIClock t) s23 in
  let elapsed_seconds := elapsedSeconds t1 t in
  m_currentBPM s23 = m_currentBPM s
  /\ m_currentBPM s24
     = (if bpmAccepted s elapsed_seconds
        then (60 / elapsed_seconds)%Q else m_currentBPM s)
  /\ s_clockWindow s24 = 24
  /\ s_lastClockTime s24 = t.
Proof.
  intros W LN s23 s24 elapsed_seconds.
  destruct (handleMIDIClock_window t1 s) as (m & X & M1 & M2 & M3 & M4).
  rewrite W in M1.
  destruct (bpmWindow_opening t1 m M1) as (O1 & O2 & O3).
  destruct (bpmWindow_frame t1 m) as (_ & _ & _ & _ & _ & O4 & _).
  rewrite <- X in O1, O2, O3, O4.
  unfold s23 in *. cbn [clockRun] in *. unfold stamp in *.
  destruct (clockRun_counting ts (exec (handleMIDIClock t1) s))
    as (C1 & C2 & C3 & C4); [rewrite O1, LN; reflexivity |].
  destruct (clockRun ts (exec (handleMIDIClock t1) s)) as [s2 tr2].
  cbn [fst] in *. rewrite O1, LN in C1. change (23 - Z.of_nat 22) with 1 in C1.
  destruct (handleMIDIClock_window t s2) as (m2 & X2 & N1 & N2 & N3 & N4).
  fold s24 in X2. rewrite C1 in N1.
  destruct (bpmWindow_evaluating t m2 N1) as (E1 & E2 & E3).
  rewrite <- X2 in E1, E2, E3. rewrite N2, C2, O2 in E3.
  fold elapsed_seconds in E3.
  assert (BA : bpmAccepted m2 elapsed_seconds = bpmAccepted s elapsed_seconds).
  { unfold bpmAccepted. rewrite N3, N4, C3, C4, O3, O4, M3, M4. reflexivity. }
  rewrite BA, N3, C3, O3, M3 in E3.
  repeat split; try assumption. congruence.
Qed.


(** ** [start] and [stop] *)







(** ** The stored BPM stays in [20, 300] *)

Lemma bpmWindow_range (t : TimePoint) (s : SyncController) :
  (20 <= m_currentBPM s <= 300)%Q ->
  (20 <= m_currentBPM (exec (bpmWindow t) s) <= 300)%Q.
Proof.
  unfold bpmWindow, updateSyncTimer. destruct s. unfold_state. intro H.
  case_ifs; try exact H;
    repeat match goal with
           | X : _ && _ = true |- _ =>
               apply andb_true_iff in X; destruct X
           | X : Qle_bool _ _ = true |- _ => apply Qle_bool_iff in X
           end;
    split; assumption.
Qed.

Lemma handleMIDIClock_range (t : TimePoint) (s : SyncController) :
  (20 <= m_currentBPM s <= 300)%Q ->
  (20 <= m_currentBPM (exec (handleMIDIClock t) s) <= 300)%Q.
Proof.
  intro H. destruct (handleMIDIClock_window t s) as (m & X & _ & _ & M & _).
  rewrite X. apply bpmWindow_range. rewrite M. exact H.
Qed.

Lemma setBPM_range (bpm : Q) (s : SyncController) :
  (20 <= m_currentBPM s <= 300)%Q ->
  (20 <= m_currentBPM (exec (setBPM bpm) s) <= 300)%Q.
Proof.
  intro H. unfold exec.
  destruct (Qle_bool 20 bpm && Qle_bool bpm 300) eqn:G.
  - apply andb_true_iff in G. destruct G as [G1 G2].
    apply Qle_bool_iff in G1. apply Qle_bool_iff in G2.
    rewrite setBPM_in_range by (split; assumption).
    destruct (m_syncTimer s); split; assumption.
  - unfold setBPM. rewrite G. exact H.
Qed.

Lemma updateBPMFromDAW_range (bpm : Q) (s : SyncController) :
  (20 <= m_currentBPM s <= 300)%Q ->
  (20 <= m_currentBPM (exec (updateBPMFromDAW bpm) s) <= 300)%Q.
Proof.
  unfold updateBPMFromDAW, updateSyncTimer.
  destruct (Qle_bool 20 bpm && Qle_bool bpm 300) eqn:G;
    [| intro H; exact H].
  apply andb_true_iff in G. destruct G as [G1 G2].
  apply Qle_bool_iff in G1. apply Qle_bool_iff in G2.
  destruct s. unfold_state. intro H.
  case_ifs; try exact H; split; assumption.
Qed.

(** * Further properties of the engine and the controller *)

(** ** Outbound encodings *)

Lemma land_ones_7 (x : Z) : Z.land x 127 = x mod 128.
Proof. change 127 with (Z.ones 7). rewrite Z.land_ones by lia. reflexivity. Qed.

Lemma land_ones_4 (x : Z) : Z.land x 15 = x mod 16.
Proof. change 15 with (Z.ones 4). rewrite Z.land_ones by lia. reflexivity. Qed.

Lemma land_ones_8 (x : Z) : Z.land x 255 = x mod 256.
Proof. change 255 with (Z.ones 8). rewrite Z.land_ones by lia. reflexivity. Qed.

(** Bits that do not overlap add up. *)
Lemma lor_high_low (high low n : Z) :
  0 <= n -> 0 <= low < 2 ^ n ->
  Z.lor (high * 2 ^ n) low = high * 2 ^ n + low.
Proof.
  intros Hn Hl.
  assert (D : Z.land (high * 2 ^ n) low = 0).
  { apply Z.bits_inj'. intros k Hk. rewrite Z.land_spec, Z.bits_0.
    destruct (Z.ltb_spec k n) as [L | L].
    - rewrite Z.mul_pow2_bits_low by lia. reflexivity.
    - assert (E : Z.testbit low k = false).
      { destruct (Z.eq_dec low 0) as [-> | NZ]; [apply Z.bits_0 |].
        apply Z.bits_above_log2; [lia |].
        apply Z.log2_lt_pow2; [lia |].
        apply Z.lt_le_trans with (2 ^ n); [lia |].
        apply Z.pow_le_mono_r; lia. }
      rewrite E. apply andb_false_r. }
  rewrite <- Z.lxor_lor by exact D. symmetry.
  apply Z.add_nocarry_lxor. exact D.
Qed.

Lemma noteOnMessage_bytes (channel note velocity : Z) :
  noteOnMessage channel note velocity
  = [144 + channel mod 16; note mod 128; velocity mod 128].
Proof.
  unfold noteOnMessage, toByte.
  rewrite !land_ones_7, land_ones_4.
  change 144 with (9 * 2 ^ 4) at 1.
  rewrite lor_high_low by (try lia; apply Z.mod_pos_bound; lia).
  change (9 * 2 ^ 4) with 144.
  rewrite (Z.mod_small (144 + channel mod 16) 256) by zlia.
  rewrite (Z.mod_small (note mod 128) 256) by zlia.
  rewrite (Z.mod_small (velocity mod 128) 256) by zlia.
  reflexivity.
Qed.

Lemma noteOffMessage_bytes (channel note velocity : Z) :
  noteOffMessage channel note velocity
  = [128 + channel mod 16; note mod 128; velocity mod 128].
Proof.
  unfold noteOffMessage, toByte.
  rewrite !land_ones_7, land_ones_4.
  change 128 with (8 * 2 ^ 4) at 1.
  rewrite lor_high_low by (try lia; apply Z.mod_pos_bound; lia).
  change (8 * 2 ^ 4) with 128.
  rewrite (Z.mod_small (128 + channel mod 16) 256) by zlia.
  rewrite (Z.mod_small (note mod 128) 256) by zlia.
  rewrite (Z.mod_small (velocity mod 128) 256) by zlia.
  reflexivity.
Qed.

Lemma songPositionPointerMessage_bytes (position : Z) :
  songPositionPointerMessage position
  = [242; position mod 128; (position / 128) mod 128].
Proof.
  unfold songPositionPointerMessage, toByte.
  rewrite !land_ones_7, Z.shiftr_div_pow2 by lia.
  change (2 ^ 7) with 128.
  rewrite (Z.mod_small (position mod 128) 256) by zlia.
  rewrite (Z.mod_small ((position / 128) mod 128) 256) by zlia.
  reflexivity.
Qed.

(** X2. Whatever integers they are given, [sendNoteOn] and [sendNoteOff]
    write a three-byte channel message: status [0x90] or [0x80] plus the
    channel modulo 16, then the note and the velocity modulo 128; the message
    is well formed and the two agree on channel and key. *)
Theorem note_messages_well_formed (channel note velocity velocity' : Z) :
  noteOnMessage channel note velocity
  = [144 + channel mod 16; note mod 128; velocity mod 128]
  /\ noteOffMessage channel note velocity'
     = [128 + channel mod 16; note mod 128; velocity' mod 128]
  /\ wellFormedMessage (noteOnMessage channel note velocity)
  /\ wellFormedMessage (noteOffMessage channel note velocity').
Proof.
  rewrite noteOnMessage_bytes, noteOffMessage_bytes.
  split; [reflexivity |]. split; [reflexivity |].
  split; (split; [zlia |]); repeat constructor; unfold isDataByte; zlia.
Qed.

(** ** Song Position Pointer: encoding and decoding *)

Lemma sppPosition_data_bytes (lsb msb : Z) :
  0 <= lsb < 128 -> 0 <= msb < 128 ->
  sppPosition lsb msb = msb * 128 + lsb.
Proof.
  intros Hl Hm. unfold sppPosition.
  rewrite Z.shiftl_mul_pow2, Z.lor_comm by lia.
  rewrite lor_high_low by lia. change (2 ^ 7) with 128.
  apply Z.mod_small. change (2 ^ 16) with 65536. lia.
Qed.

(** X1. A position written by [sendSongPositionPointer] and read back by
    [processQueuedMessages] comes out modulo [2^14]: unchanged when it is in
    [0, 16383], the range of the message. *)
Theorem song_position_round_trip (position : Z) :
  processMessage (songPositionPointerMessage position)
  = [MidiSongPositionPointerReceived
       (position mod 16384) (sppQuarterNotes (position mod 16384))]
  /\ (0 <= position < 16384 ->
      processMessage (songPositionPointerMessage position)
      = [MidiSongPositionPointerReceived
           position (sppQuarterNotes position)]).
Proof.
  assert (E : processMessage (songPositionPointerMessage position)
              = [MidiSongPositionPointerReceived
                   (position mod 16384)
                   (sppQuarterNotes (position mod 16384))]).
  { rewrite songPositionPointerMessage_bytes.
    cbn [processMessage Z.leb Z.eqb Z.compare Pos.compare Pos.compare_cont
         Pos.eqb andb].
    rewrite sppPosition_data_bytes by (apply Z.mod_pos_bound; lia).
    replace ((position / 128) mod 128 * 128 + position mod 128)
      with (position mod 16384) by zlia.
    reflexivity. }
  split; [exact E |].
  intro H. rewrite E, Z.mod_small by exact H. reflexivity.
Qed.

Lemma song_position_round_trip_witness :
  processMessage (songPositionPointerMessage 16)
  = [MidiSongPositionPointerReceived 16 (sppQuarterNotes 16)].
Proof.
  apply (proj2 (song_position_round_trip 16)). split; [discriminate | reflexivity].
Defined.

(** ** Members functions as compositions of their blocks *)

Lemma exec_bind_result {A B} (c : Cmd A) (k : A -> Cmd B)
    (s : SyncController) :
  exec (bind c k) s = exec (k (result c s)) (exec c s).
Proof.
  unfold exec, result, bind. destruct (c s) as [[a s1] e1]. cbn [fst snd].
  destruct (k a s1) as [[b s2] e2]. reflexivity.
Qed.

Lemma trace_bind_result {A B} (c : Cmd A) (k : A -> Cmd B)
    (s : SyncController) :
  trace (bind c k) s = trace c s ++ trace (k (result c s)) (exec c s).
Proof.
  unfold exec, result, trace, bind. destruct (c s) as [[a s1] e1].
  cbn [fst snd]. destruct (k a s1) as [[b s2] e2]. reflexivity.
Qed.

(** The position block of [handleMIDIClock], whether running or not. *)
Lemma clockPosition_any (t : TimePoint) (s : SyncController) :
  let sa := exec (clockPosition t) s in
  trace (clockPosition t) s = []
  /\ fst (result (clockPosition t) s) = m_isRunning s
  /\ snd (result (clockPosition t) s)
     = (if m_isRunning s
        then inject_Z (m_clockCount s + 1) / inject_Z CLOCKS_PER_QUARTER_NOTE
        else 0)%Q
  /\ m_clockCount sa
     = (if m_isRunning s then m_clockCount s + 1 else m_clockCount s)
  /\ m_incomingClockCount sa = m_incomingClockCount s + 1
  /\ m_engine sa = m_engine s /\ m_isRunning sa = m_isRunning s
  /\ m_lastEmittedWholeNote sa = m_lastEmittedWholeNote s
  /\ m_noteOn sa = m_noteOn s /\ m_currentBPM sa = m_currentBPM s
  /\ m_syncTimer sa = m_syncTimer s
  /\ s_clockWindow sa = s_clockWindow s
  /\ s_lastClockTime sa = s_lastClockTime s
  /\ m_bpmUpdateBlocked sa = m_bpmUpdateBlocked s
  /\ m_transportSyncBlocked sa = m_transportSyncBlocked s
  /\ m_midiChannel sa = m_midiChannel s /\ m_midiNote sa = m_midiNote s
  /\ m_midiVelocity sa = m_midiVelocity s.
Proof.
  unfold clockPosition. destruct s. unfold_state.
  destruct m_isRunning0; repeat split.
Qed.

Lemma handleMIDIClock_blocks (t : TimePoint) (s : SyncController) :
  let sa := exec (clockPosition t) s in
  let pos := snd (result (clockPosition t) s) in
  exec (handleMIDIClock t) s
  = exec (bpmWindow t)
      (if m_isRunning s && m_engine s
       then exec (checkAndEmitWholeNote pos) sa else sa)
  /\ trace (handleMIDIClock t) s
     = (if m_isRunning s && m_engine s
        then trace (checkAndEmitWholeNote pos) sa else [])
       ++ [ClockTick].
Proof.
  intros sa pos.
  destruct (clockPosition_any t s) as (T & R & _ & _ & _ & E & _).
  fold sa in E. unfold handleMIDIClock.
  rewrite exec_bind_result, trace_bind_result, T. fold sa. fold pos.
  rewrite R. cbn [app].
  rewrite exec_bind_result, trace_bind_result.
  change (trace get sa) with (@nil Event). change (result get sa) with sa.
  change (exec get sa) with sa. rewrite E. cbn [app].
  rewrite exec_bind_result, trace_bind_result.
  destruct (m_isRunning s && m_engine s); cbv [when].
  - rewrite exec_bind_result, trace_bind_result, bpmWindow_trace.
    split; reflexivity.
  - change (exec (ret tt) sa) with sa. change (trace (ret tt) sa) with (@nil Event).
    rewrite exec_bind_result, trace_bind_result, bpmWindow_trace.
    split; reflexivity.
Qed.

(** ** The period of the internal timer *)


(** ** What every call keeps *)

Lemma wellFormed_iff (s : SyncController) :
  wellFormed s <->
  (20 <= m_currentBPM s <= 300)%Q
  /\ 0 <= s_clockWindow s <= 24
  /\ 0 <= m_clockCount s
  /\ match m_syncTimer s with
     | Some t => interval t = Qtrunc ((60 / m_currentBPM s / 24) * 1000)
                 /\ (isActive t = true -> m_isRunning s = true)
     | None => True
     end
  /\ (m_noteOn s = true -> m_engine s = true)
  /\ m_midiChannel s = 0 /\ m_midiNote s = 60 /\ m_midiVelocity s = 100.
Proof.
  split.
  - intros [B W T Tm N V]. repeat split; try tauto; try lia.
    destruct (m_syncTimer s) as [t |]; [apply Tm; reflexivity | exact I].
  - intros (B & W & T & Tm & N & V). constructor; try assumption.
    intros t E. rewrite E in Tm. exact Tm.
Qed.

Lemma SyncController_new_wellFormed (engine : bool) (now : TimePoint) :
  wellFormed (SyncController_new engine now).
Proof.
  apply wellFormed_iff. cbn. repeat split; try lia; try discriminate.
Qed.

Ltac guards :=
  repeat match goal with
         | X : _ && _ = true |- _ => apply andb_true_iff in X; destruct X
         | X : Qle_bool _ _ = true |- _ => apply Qle_bool_iff in X
         | X : (_ =? _) = true |- _ => apply Z.eqb_eq in X
         | X : (_ =? _) = false |- _ => apply Z.eqb_neq in X
         | X : (_ <=? _) = true |- _ => apply Z.leb_le in X
         end.

Ltac wf_simple :=
  rewrite !wellFormed_iff;
  match goal with s : SyncController |- _ => destruct s end;
  unfold_state; intros (B & W & T & Tm & N & V);
  case_ifs; guards;
  repeat match goal with
         | |- _ /\ _ => split
         | |- _ -> _ => intro
         end;
  try assumption; try exact I; try reflexivity; try discriminate;
  try tauto; try lia; try (intuition congruence).

Lemma blockBPMUpdates_wf (block : bool) (s : SyncController) :
  wellFormed s -> wellFormed (exec (blockBPMUpdates block) s).
Proof. unfold blockBPMUpdates. wf_simple. Qed.

Lemma blockTransportSync_wf (block : bool) (s : SyncController) :
  wellFormed s -> wellFormed (exec (blockTransportSync block) s).
Proof. unfold blockTransportSync. wf_simple. Qed.

Lemma setBPM_wf (bpm : Q) (s : SyncController) :
  wellFormed s -> wellFormed (exec (setBPM bpm) s).
Proof. unfold setBPM, updateSyncTimer. wf_simple. Qed.

Lemma updateBPMFromDAW_wf (bpm : Q) (s : SyncController) :
  wellFormed s -> wellFormed (exec (updateBPMFromDAW bpm) s).
Proof. unfold updateBPMFromDAW, updateSyncTimer. wf_simple. Qed.

Lemma syncBPMToDAW_wf (bpm : Z) (s : SyncController) :
  wellFormed s -> wellFormed (exec (syncBPMToDAW bpm) s).
Proof. unfold syncBPMToDAW. wf_simple. Qed.

Lemma start_wf (sendStartCommand : bool) (now : TimePoint)
    (s : SyncController) :
  wellFormed s -> wellFormed (exec (start sendStartCommand now) s).
Proof. unfold start, updateSyncTimer. wf_simple. Qed.

Lemma stop_wf (sendStopCommand : bool) (s : SyncController) :
  wellFormed s -> wellFormed (exec (stop sendStopCommand) s).
Proof. unfold stop. wf_simple. Qed.

Lemma handleDAWStart_wf (now : TimePoint) (s : SyncController) :
  wellFormed s -> wellFormed (exec (handleDAWStart now) s).
Proof. unfold handleDAWStart. wf_simple. Qed.

Lemma handleDAWStop_wf (s : SyncController) :
  wellFormed s -> wellFormed (exec handleDAWStop s).
Proof. unfold handleDAWStop, stop. wf_simple. Qed.

Lemma handleDAWContinue_wf (now : TimePoint) (s : SyncController) :
  wellFormed s -> wellFormed (exec (handleDAWContinue now) s).
Proof. unfold handleDAWContinue. wf_simple. Qed.

Lemma checkAndEmitWholeNote_wf (pos : Q) (s : SyncController) :
  wellFormed s -> wellFormed (exec (checkAndEmitWholeNote pos) s).
Proof.
  rewrite !wellFormed_iff. intros (B & W & T & Tm & N & V).
  destruct (cae_frame pos s)
    as (E & R & C & M & _ & _ & Wn & _ & Ti & V1 & V2 & V3).
  rewrite M, Wn, C, Ti, R, E, V1, V2, V3, cae_noteOn.
  repeat split; try tauto.
  destruct (shouldEmit pos s && m_engine s) eqn:G.
  - intros _. apply andb_true_iff in G. tauto.
  - intro H. apply andb_true_iff in H. tauto.
Qed.

Lemma bpmWindow_wf (t : TimePoint) (s : SyncController) :
  wellFormed s -> wellFormed (exec (bpmWindow t) s).
Proof.
  unfold bpmWindow, updateSyncTimer, CLOCKS_PER_QUARTER_NOTE. wf_simple.
Qed.

Lemma clockPosition_wf (t : TimePoint) (s : SyncController) :
  wellFormed s -> wellFormed (exec (clockPosition t) s).
Proof. unfold clockPosition. wf_simple. Qed.

Lemma tickPosition_wf (s : SyncController) :
  wellFormed s -> wellFormed (tickPosition s).
Proof. unfold tickPosition. wf_simple. Qed.

Lemma sppUpdatePosition_wf (positionBeats : Z) (positionQuarterNotes : Q)
    (s : SyncController) :
  wellFormed s ->
  wellFormed (exec (sppUpdatePosition positionBeats positionQuarterNotes) s).
Proof. unfold sppUpdatePosition. wf_simple. Qed.

Lemma onSyncTick_blocks (s : SyncController) :
  let pos := (inject_Z (m_clockCount s + 1)
              / inject_Z CLOCKS_PER_QUARTER_NOTE)%Q in
  exec onSyncTick s
  = (if m_isRunning s && m_engine s
     then exec (checkAndEmitWholeNote pos) (tickPosition s)
     else tickPosition s)
  /\ trace onSyncTick s
     = (if m_isRunning s && m_engine s
        then SendSystemMessage MIDI_REALTIME_CLOCK
             :: trace (checkAndEmitWholeNote pos) (tickPosition s)
        else []).
Proof.
  intro pos. unfold onSyncTick.
  rewrite exec_bind_result, trace_bind_result.
  change (trace get s) with (@nil Event). change (result get s) with s.
  change (exec get s) with s. cbn [app].
  rewrite exec_bind_result, trace_bind_result.
  unfold tickPosition. fold pos.
  destruct (m_isRunning s) eqn:R; destruct (m_engine s) eqn:E;
    cbn [andb when]; split;
    repeat rewrite exec_bind_result; repeat rewrite trace_bind_result;
    reflexivity.
Qed.

Lemma handleSongPositionPointer_blocks
    (positionBeats : Z) (positionQuarterNotes : Q) (s : SyncController) :
  let s1 := exec (sppUpdatePosition positionBeats positionQuarterNotes) s in
  let run := (0 <=? positionBeats) && m_isRunning s
             && Qle_bool 0 positionQuarterNotes in
  exec (handleSongPositionPointer positionBeats positionQuarterNotes) s
  = (if run then exec (checkAndEmitWholeNote positionQuarterNotes) s1 else s1)
  /\ trace (handleSongPositionPointer positionBeats positionQuarterNotes) s
     = (if run then trace (checkAndEmitWholeNote positionQuarterNotes) s1
        else [])
       ++ [PositionChanged positionBeats positionQuarterNotes].
Proof.
  intros s1 run.
  assert (R : result (sppUpdatePosition positionBeats positionQuarterNotes) s
              = (0 <=? positionBeats) && m_isRunning s).
  { unfold sppUpdatePosition. destruct (0 <=? positionBeats); [| reflexivity].
    clear. destruct s. unfold_state. case_ifs; reflexivity. }
  assert (T : trace (sppUpdatePosition positionBeats positionQuarterNotes) s
              = []).
  { unfold sppUpdatePosition. destruct (0 <=? positionBeats); [| reflexivity].
    clear. destruct s. unfold_state. case_ifs; reflexivity. }
  unfold handleSongPositionPointer.
  rewrite exec_bind_result, trace_bind_result, T, R. fold s1. fold run.
  cbn [app]. rewrite exec_bind_result, trace_bind_result.
  destruct run; cbv [when]; split; reflexivity.
Qed.

Lemma handleMIDIClock_wf (t : TimePoint) (s : SyncController) :
  wellFormed s -> wellFormed (exec (handleMIDIClock t) s).
Proof.
  intro H. destruct (handleMIDIClock_blocks t s) as [-> _].
  apply bpmWindow_wf.
  destruct (m_isRunning s && m_engine s);
    [apply checkAndEmitWholeNote_wf |]; apply clockPosition_wf; exact H.
Qed.

Lemma handleSongPositionPointer_wf
    (positionBeats : Z) (positionQuarterNotes : Q) (s : SyncController) :
  wellFormed s ->
  wellFormed
    (exec (handleSongPositionPointer positionBeats positionQuarterNotes) s).
Proof.
  intro H.
  destruct (handleSongPositionPointer_blocks positionBeats
              positionQuarterNotes s) as [-> _].
  destruct (_ && _ && _);
    [apply checkAndEmitWholeNote_wf |]; apply sppUpdatePosition_wf; exact H.
Qed.

Lemma onSyncTick_wf (s : SyncController) :
  wellFormed s -> wellFormed (exec onSyncTick s).
Proof.
  intro H. destruct (onSyncTick_blocks s) as [-> _].
  destruct (m_isRunning s && m_engine s);
    [apply checkAndEmitWholeNote_wf |]; apply tickPosition_wf; exact H.
Qed.

Lemma call_wf (c : Call) (s : SyncController) :
  wellFormed s -> wellFormed (exec (call c) s).
Proof.
  destruct c; cbn [call].
  - apply setBPM_wf.
  - apply blockBPMUpdates_wf.
  - apply blockTransportSync_wf.
  - apply start_wf.
  - apply stop_wf.
  - apply handleDAWStart_wf.
  - apply handleDAWStop_wf.
  - apply handleDAWContinue_wf.
  - apply handleMIDIClock_wf.
  - apply handleSongPositionPointer_wf.
  - apply onSyncTick_wf.
  - apply syncBPMToDAW_wf.
  - apply updateBPMFromDAW_wf.
Qed.

Lemma calls_cons (c : Call) (cs : list Call) (s : SyncController) :
  exec (calls (c :: cs)) s = exec (calls cs) (exec (call c) s)
  /\ trace (calls (c :: cs)) s
     = trace (call c) s ++ trace (calls cs) (exec (call c) s).
Proof.
  cbn [calls]. rewrite exec_bind_result, trace_bind_result. split; reflexivity.
Qed.

Lemma calls_wf (cs : list Call) (s : SyncController) :
  wellFormed s -> wellFormed (exec (calls cs) s).
Proof.
  revert s. induction cs as [| c cs IH]; intros s H.
  - exact H.
  - destruct (calls_cons c cs s) as [-> _]. apply IH, call_wf, H.
Qed.

(** ** What every call leaves alone, and what it can send *)

Ltac frame_simple :=
  match goal with s : SyncController |- _ => destruct s end;
  unfold_state; case_ifs; repeat split; congruence.

Lemma call_frame (c : Call) (s : SyncController) :
  m_engine (exec (call c) s) = m_engine s
  /\ m_midiChannel (exec (call c) s) = m_midiChannel s
  /\ m_midiNote (exec (call c) s) = m_midiNote s
  /\ m_midiVelocity (exec (call c) s) = m_midiVelocity s.
Proof.
  destruct c; cbn [call].
  - unfold setBPM, updateSyncTimer. frame_simple.
  - unfold blockBPMUpdates. frame_simple.
  - unfold blockTransportSync. frame_simple.
  - unfold start, updateSyncTimer. frame_simple.
  - unfold stop. frame_simple.
  - unfold handleDAWStart. frame_simple.
  - unfold handleDAWStop, stop. frame_simple.
  - unfold handleDAWContinue. frame_simple.
  - destruct (handleMIDIClock_blocks now s) as [-> _].
    destruct (bpmWindow_frame now
                (if m_isRunning s && m_engine s
                 then exec (checkAndEmitWholeNote
                              (snd (result (clockPosition now) s)))
                        (exec (clockPosition now) s)
                 else exec (clockPosition now) s))
      as (-> & _ & _ & _ & _ & _ & _ & _ & -> & -> & ->).
    destruct (clockPosition_any now s)
      as (_ & _ & _ & _ & _ & E & _ & _ & _ & _ & _ & _ & _ & _ & _
          & V1 & V2 & V3).
    destruct (m_isRunning s && m_engine s).
    + destruct (cae_frame (snd (result (clockPosition now) s))
                  (exec (clockPosition now) s))
        as (-> & _ & _ & _ & _ & _ & _ & _ & _ & -> & -> & ->).
      repeat split; assumption.
    + repeat split; assumption.
  - destruct (handleSongPositionPointer_blocks positionBeats
                positionQuarterNotes s) as [-> _].
    assert (F : let s1 := exec (sppUpdatePosition positionBeats
                                  positionQuarterNotes) s in
                m_engine s1 = m_engine s
                /\ m_midiChannel s1 = m_midiChannel s
                /\ m_midiNote s1 = m_midiNote s
                /\ m_midiVelocity s1 = m_midiVelocity s).
    { unfold sppUpdatePosition. frame_simple. }
    cbv zeta in F. destruct (_ && _ && _); [| exact F].
    destruct (cae_frame positionQuarterNotes
                (exec (sppUpdatePosition positionBeats
                         positionQuarterNotes) s))
      as (-> & _ & _ & _ & _ & _ & _ & _ & _ & -> & -> & ->).
    exact F.
  - destruct (onSyncTick_blocks s) as [-> _].
    assert (F : m_engine (tickPosition s) = m_engine s
                /\ m_midiChannel (tickPosition s) = m_midiChannel s
                /\ m_midiNote (tickPosition s) = m_midiNote s
                /\ m_midiVelocity (tickPosition s) = m_midiVelocity s).
    { unfold tickPosition. frame_simple. }
    destruct (m_isRunning s && m_engine s); [| exact F].
    destruct (cae_frame
                (inject_Z (m_clockCount s + 1)
                 / inject_Z CLOCKS_PER_QUARTER_NOTE)
                (tickPosition s))
      as (-> & _ & _ & _ & _ & _ & _ & _ & _ & -> & -> & ->).
    exact F.
  - unfold syncBPMToDAW. frame_simple.
  - unfold updateBPMFromDAW, updateSyncTimer. frame_simple.
Qed.

Lemma controllerEvent_frame (s s' : SyncController) (e : Event) :
  m_engine s' = m_engine s /\ m_midiChannel s' = m_midiChannel s
  /\ m_midiNote s' = m_midiNote s /\ m_midiVelocity s' = m_midiVelocity s ->
  controllerEvent s' e -> controllerEvent s e.
Proof.
  intros (E & C & N & V). destruct e; cbn; rewrite ?E, ?C, ?N, ?V; exact id.
Qed.

Lemma checkAndEmitWholeNote_events (pos : Q) (s : SyncController) :
  Forall (controllerEvent s) (trace (checkAndEmitWholeNote pos) s).
Proof.
  rewrite cae_trace. apply Forall_app. split.
  - destruct (noteShouldBeOff pos s && m_engine s) eqn:G; [| constructor].
    apply andb_true_iff in G. repeat constructor; tauto.
  - destruct (shouldEmit pos s && m_engine s) eqn:G; [| constructor].
    apply andb_true_iff in G. repeat constructor; cbn; tauto.
Qed.

Ltac case_timer :=
  repeat (match goal with
          | |- context [match ?c with Some _ => _ | None => _ end] =>
              destruct c eqn:?
          end; cbv beta iota).

Ltac events_simple :=
  match goal with s : SyncController |- _ => destruct s end;
  unfold_state; case_timer; case_ifs; guards; cbn [app];
  repeat (constructor; cbn; auto).

Lemma call_events (c : Call) (s : SyncController) :
  Forall (controllerEvent s) (trace (call c) s).
Proof.
  destruct c; cbn [call].
  - unfold setBPM, updateSyncTimer. events_simple.
  - unfold blockBPMUpdates. events_simple.
  - unfold blockTransportSync. events_simple.
  - unfold start, updateSyncTimer, MIDI_REALTIME_CLOCK, MIDI_REALTIME_START,
      MIDI_REALTIME_STOP. events_simple.
  - unfold stop. events_simple.
  - unfold handleDAWStart. events_simple.
  - unfold handleDAWStop, stop. events_simple.
  - unfold handleDAWContinue. events_simple.
  - destruct (handleMIDIClock_blocks now s) as [_ ->].
    apply Forall_app. split; [| repeat constructor].
    destruct (m_isRunning s && m_engine s); [| constructor].
    eapply Forall_impl; [| apply checkAndEmitWholeNote_events].
    intro e. apply controllerEvent_frame.
    destruct (clockPosition_any now s)
      as (_ & _ & _ & _ & _ & E & _ & _ & _ & _ & _ & _ & _ & _ & _
          & V1 & V2 & V3).
    repeat split; congruence.
  - destruct (handleSongPositionPointer_blocks positionBeats
                positionQuarterNotes s) as [_ ->].
    apply Forall_app. split; [| repeat constructor].
    destruct (_ && _ && _); [| constructor].
    eapply Forall_impl; [| apply checkAndEmitWholeNote_events].
    intro e. apply controllerEvent_frame.
    unfold sppUpdatePosition. clear. frame_simple.
  - destruct (onSyncTick_blocks s) as [_ ->].
    destruct (m_isRunning s && m_engine s) eqn:G; [| constructor].
    apply andb_true_iff in G. constructor.
    + cbn. split; [tauto | left; reflexivity].
    + eapply Forall_impl; [| apply checkAndEmitWholeNote_events].
      intro e. apply controllerEvent_frame.
      unfold tickPosition. clear. frame_simple.
  - unfold syncBPMToDAW. events_simple.
  - unfold updateBPMFromDAW, updateSyncTimer. events_simple.
Qed.

Lemma calls_frame (cs : list Call) (s : SyncController) :
  m_engine (exec (calls cs) s) = m_engine s
  /\ m_midiChannel (exec (calls cs) s) = m_midiChannel s
  /\ m_midiNote (exec (calls cs) s) = m_midiNote s
  /\ m_midiVelocity (exec (calls cs) s) = m_midiVelocity s.
Proof.
  revert s. induction cs as [| c cs IH]; intro s.
  - repeat split.
  - destruct (calls_cons c cs s) as [-> _].
    destruct (IH (exec (call c) s)) as (-> & -> & -> & ->).
    apply call_frame.
Qed.

Lemma calls_events (cs : list Call) (s : SyncController) :
  Forall (controllerEvent s) (trace (calls cs) s).
Proof.
  revert s. induction cs as [| c cs IH]; intro s.
  - constructor.
  - destruct (calls_cons c cs s) as [_ ->]. apply Forall_app. split.
    + apply call_events.
    + eapply Forall_impl; [| apply IH].
      intro e. apply controllerEvent_frame, call_frame.
Qed.

(** ** Invariants of the controller over every sequence of calls *)




(** X5. A controller constructed without an engine (as the test suite
    constructs it) never calls the engine and never signals [beatSent],
    whatever is called on it: its events are only [runningChanged],
    [bpmChanged], [clockTick] and [positionChanged]. *)
Theorem null_engine_never_sends (now : TimePoint) (cs : list Call) :
  Forall silent (trace (calls cs) (SyncController_new false now)).
Proof.
  eapply Forall_impl; [| apply calls_events].
  intros e H. destruct e; cbn in *; try exact I;
    [destruct H as [H _] | destruct H as [H _] | destruct H as [H _] |];
    discriminate H.
Qed.

Lemma controllerMessages_well_formed (message : list Z) :
  In message controllerMessages ->
  In message controllerMessages /\ wellFormedMessage message.
Proof.
  intro H. split; [exact H |].
  cbn in H. destruct H as [<- | [<- | [<- | [<- | [<- | []]]]]];
    cbn; (split; [lia |]); repeat constructor; unfold isDataByte; lia.
Qed.

(** X6. Whatever is called on a controller since its construction, all that
    is written to the output port is made of five messages: Clock [F8],
    Start [FA], Stop [FC], note-on [90 3C 64] and note-off [80 3C 00]; each
    is a well-formed MIDI message. With no output port open nothing is
    written. *)
Theorem controller_writes_only_five_messages
    (engine portOpen : bool) (now : TimePoint) (cs : list Call) :
  let tr := trace (calls cs) (SyncController_new engine now) in
  Forall (fun message =>
            In message controllerMessages /\ wellFormedMessage message)
         (wire portOpen tr)
  /\ wire false tr = [].
Proof.
  intro tr. split.
  - unfold wire. apply Forall_flat_map.
    eapply Forall_impl; [| apply calls_events].
    intros e H.
    destruct e; destruct portOpen; cbn in *; try (constructor; fail).
    + destruct H as (_ & -> & -> & ->).
      constructor; [| constructor].
      apply controllerMessages_well_formed. vm_compute. tauto.
    + destruct H as (_ & -> & -> & ->).
      constructor; [| constructor].
      apply controllerMessages_well_formed. vm_compute. tauto.
    + constructor; [| constructor].
      apply controllerMessages_well_formed.
      destruct H as (_ & [-> | [-> | ->]]); vm_compute; tauto.
  - unfold wire. induction tr as [| e tr IH]; [reflexivity |].
    cbn [flat_map]. rewrite IH. destruct e; reflexivity.
Qed.

(** ** Inbound messages, from the queue to the controller *)

Lemma ret_bind_ret (s : SyncController) :
  bind (ret tt) (fun _ : unit => ret tt) s = (tt, s, []).
Proof. reflexivity. Qed.

Lemma cmd_bind_ret (c : Cmd unit) (s : SyncController) :
  c s = (tt, s, []) -> bind c (fun _ => ret tt) s = (tt, s, []).
Proof. intro H. unfold bind. rewrite H. reflexivity. Qed.

(** X7. Messages that are not Clock, Start, Continue, Stop or a complete
    Song Position Pointer never reach the controller: channel messages
    (status below [F0]), System Exclusive, Active Sensing, the other system
    statuses, an empty message and a Song Position Pointer short of its two
    data bytes leave the controller as it is and cause no event. *)
Theorem unhandled_messages_ignored
    (now : TimePoint) (message : list Z) (s : SyncController) :
  match message with
  | [] => True
  | status :: data =>
      (status <> 248 /\ status <> 250 /\ status <> 251 /\ status <> 252
       /\ status <> 242)
      \/ (status = 242 /\ (length data < 2)%nat)
  end ->
  receiveMessage now message s = (tt, s, []).
Proof.
  unfold receiveMessage. destruct message as [| status data]; [reflexivity |].
  intros [(H1 & H2 & H3 & H4 & H5) | [-> H]].
  - unfold processMessage.
    apply Z.eqb_neq in H1, H2, H3, H4, H5. rewrite H1, H2, H3, H4, H5.
    repeat match goal with
           | |- context [if ?c then _ else _] => destruct c
           end; reflexivity.
  - destruct data as [| lsb [| msb rest]]; [reflexivity | reflexivity |].
    cbn [length] in H. lia.
Qed.

Lemma unhandled_messages_ignored_witness :
  receiveMessage 0 [254] newController = (tt, newController, [])
  /\ receiveMessage 0 [144; 60; 100] newController = (tt, newController, [])
  /\ receiveMessage 0 [242; 16] newController = (tt, newController, []).
Proof.
  split; [| split].
  - apply (unhandled_messages_ignored 0 [254] newController).
    left. repeat split; discriminate.
  - apply (unhandled_messages_ignored 0 [144; 60; 100] newController).
    left. repeat split; discriminate.
  - apply (unhandled_messages_ignored 0 [242; 16] newController).
    right. split; [reflexivity | cbn; lia].
Defined.

(** X8. A Song Position Pointer to the start of the song (position 0) is
    dropped by the window's slot: the controller keeps its tick count, its
    position and its last emitted boundary, and [positionChanged] is not
    signalled. Every other position decoded from a message is forwarded to
    [handleSongPositionPointer]. *)
Theorem song_position_zero_dropped
    (now : TimePoint) (lsb msb : Z) (rest : list Z) (s : SyncController) :
  (sppPosition lsb msb = 0 ->
   receiveMessage now (242 :: lsb :: msb :: rest) s = (tt, s, []))
  /\ (sppPosition lsb msb <> 0 ->
      receiveMessage now (242 :: lsb :: msb :: rest) s
      = (handleSongPositionPointer (sppPosition lsb msb)
           (sppQuarterNotes (sppPosition lsb msb)) ;; ret tt) s).
Proof.
  unfold receiveMessage. cbn [processMessage].
  change ((248 <=? 242) && (242 <=? 255)) with false.
  change ((240 <=? 242) && (242 <=? 247)) with true.
  change (242 =? 242) with true. cbv iota.
  cbn [onEngineSignals onEngineSignal].
  unfold onSyncControllerSongPositionPointer. split.
  - intros ->. reflexivity.
  - intro H.
    assert (P : 0 <= sppPosition lsb msb)
      by (unfold sppPosition; apply Z.mod_pos_bound; lia).
    assert (G : (sppPosition lsb msb >? 0) = true)
      by (apply Z.gtb_lt; lia).
    rewrite G. reflexivity.
Qed.

Lemma song_position_zero_dropped_witness :
  receiveMessage 0 [242; 0; 0] atQuarterNote10 = (tt, atQuarterNote10, [])
  /\ receiveMessage 0 [242; 16; 0] newController
     = (handleSongPositionPointer 16 (sppQuarterNotes 16) ;; ret tt)
         newController.
Proof.
  split.
  - apply (song_position_zero_dropped 0 0 0 [] atQuarterNote10). reflexivity.
  - apply (song_position_zero_dropped 0 16 0 [] newController).
    vm_compute. discriminate.
Defined.

(** X9. Inbound transport messages that do not apply are ignored: Start and
    Continue while the controller is running (the run is not restarted),
    Stop while it is stopped, and all three while transport sync is
    blocked. The controller is left as it is and nothing is signalled. *)
Theorem inapplicable_transport_ignored
    (now : TimePoint) (status : Z) (data : list Z) (s : SyncController) :
  (status = 250 \/ status = 251 \/ status = 252) ->
  m_transportSyncBlocked s = true
  \/ m_isRunning s = (if status =? 252 then false else true) ->
  receiveMessage now (status :: data) s = (tt, s, []).
Proof.
  intros S H. unfold receiveMessage.
  destruct S as [-> | [-> | ->]]; cbn [processMessage];
    cbv [Z.leb Z.eqb Z.compare Pos.compare Pos.compare_cont Pos.eqb andb]
      in *;
    cbn [onEngineSignals onEngineSignal]; apply cmd_bind_ret;
    unfold handleDAWStart, handleDAWContinue, handleDAWStop;
    cbv [bind get]; destruct H as [-> | ->];
    try reflexivity; destruct (m_transportSyncBlocked s); reflexivity.
Qed.

Lemma inapplicable_transport_ignored_witness :
  receiveMessage 5 [250] atQuarterNote10 = (tt, atQuarterNote10, [])
  /\ receiveMessage 5 [252] newController = (tt, newController, []).
Proof.
  split.
  - apply (inapplicable_transport_ignored 5 250 [] atQuarterNote10);
      [left; reflexivity | right; reflexivity].
  - apply (inapplicable_transport_ignored 5 252 [] newController);
      [right; right; reflexivity | right; reflexivity].
Defined.

Lemma checkAndEmitWholeNote_no_system (pos : Q) (s : SyncController) :
  Forall noSystemMessage (trace (checkAndEmitWholeNote pos) s).
Proof.
  rewrite cae_trace. apply Forall_app. split.
  - destruct (_ && _); repeat constructor.
  - destruct (_ && _); repeat constructor.
Qed.

Lemma onEngineSignal_no_system
    (now : TimePoint) (signal : EngineSignal) (s : SyncController) :
  Forall noSystemMessage (trace (onEngineSignal now signal) s).
Proof.
  destruct signal; cbn [onEngineSignal].
  - destruct (handleMIDIClock_blocks now s) as [_ ->].
    apply Forall_app. split; [| repeat constructor].
    destruct (_ && _); [apply checkAndEmitWholeNote_no_system | constructor].
  - unfold handleDAWStart. events_simple.
  - unfold handleDAWContinue. events_simple.
  - unfold handleDAWStop, stop. events_simple.
  - unfold onSyncControllerSongPositionPointer.
    destruct (_ || _); cbv [when]; [| constructor].
    destruct (handleSongPositionPointer_blocks positionBeats
                positionQuarterNotes s) as [_ ->].
    apply Forall_app. split; [| repeat constructor].
    destruct (_ && _ && _);
      [apply checkAndEmitWholeNote_no_system | constructor].
  - constructor.
Qed.

Lemma onEngineSignals_no_system (now : TimePoint)
    (signals : list EngineSignal) (s : SyncController) :
  Forall noSystemMessage (trace (onEngineSignals now signals) s).
Proof.
  revert s. induction signals as [| signal rest IH]; intro s.
  - constructor.
  - cbn [onEngineSignals]. rewrite trace_bind_result.
    apply Forall_app. split; [apply onEngineSignal_no_system | apply IH].
Qed.

Lemma receiveMessages_no_system
    (ms : list (TimePoint * list Z)) (s : SyncController) :
  Forall noSystemMessage (trace (receiveMessages ms) s).
Proof.
  revert s. induction ms as [| [now message] rest IH]; intro s.
  - constructor.
  - cbn [receiveMessages]. rewrite trace_bind_result.
    apply Forall_app. split; [apply onEngineSignals_no_system | apply IH].
Qed.

Lemma calls_app (a b : list Call) (s : SyncController) :
  exec (calls (a ++ b)) s = exec (calls b) (exec (calls a) s)
  /\ trace (calls (a ++ b)) s
     = trace (calls a) s ++ trace (calls b) (exec (calls a) s).
Proof.
  revert s. induction a as [| c a IH]; intro s.
  - split; reflexivity.
  - cbn [app]. destruct (calls_cons c (a ++ b) s) as [-> ->].
    destruct (calls_cons c a s) as [-> ->].
    destruct (IH (exec (call c) s)) as [-> ->].
    rewrite app_assoc. split; reflexivity.
Qed.

Lemma call_as_calls (c : Call) (s : SyncController) :
  exec (call c) s = exec (calls [c]) s
  /\ trace (call c) s = trace (calls [c]) s.
Proof.
  destruct (calls_cons c [] s) as [-> ->].
  change (trace (calls []) (exec (call c) s)) with (@nil Event).
  rewrite app_nil_r. split; reflexivity.
Qed.

Lemma onEngineSignal_as_calls
    (now : TimePoint) (signal : EngineSignal) (s : SyncController) :
  exists cs, exec (onEngineSignal now signal) s = exec (calls cs) s
             /\ trace (onEngineSignal now signal) s = trace (calls cs) s.
Proof.
  destruct signal; cbn [onEngineSignal].
  - exists [CallHandleMIDIClock now].
    apply (call_as_calls (CallHandleMIDIClock now)).
  - exists [CallHandleDAWStart now].
    apply (call_as_calls (CallHandleDAWStart now)).
  - exists [CallHandleDAWContinue now].
    apply (call_as_calls (CallHandleDAWContinue now)).
  - exists [CallHandleDAWStop]. apply (call_as_calls CallHandleDAWStop).
  - unfold onSyncControllerSongPositionPointer.
    destruct (_ || _); cbv [when].
    + exists [CallHandleSongPositionPointer positionBeats
                positionQuarterNotes].
      apply (call_as_calls (CallHandleSongPositionPointer positionBeats
                              positionQuarterNotes)).
    + exists []. split; reflexivity.
  - exists []. split; reflexivity.
Qed.

Lemma onEngineSignals_as_calls (now : TimePoint)
    (signals : list EngineSignal) (s : SyncController) :
  exists cs, exec (onEngineSignals now signals) s = exec (calls cs) s
             /\ trace (onEngineSignals now signals) s = trace (calls cs) s.
Proof.
  revert s. induction signals as [| signal rest IH]; intro s.
  - exists []. split; reflexivity.
  - cbn [onEngineSignals]. rewrite exec_bind_result, trace_bind_result.
    destruct (onEngineSignal_as_calls now signal s) as (c1 & -> & ->).
    destruct (IH (exec (calls c1) s)) as (c2 & -> & ->).
    exists (c1 ++ c2). destruct (calls_app c1 c2 s) as [-> ->].
    split; reflexivity.
Qed.

Lemma receiveMessages_as_calls
    (ms : list (TimePoint * list Z)) (s : SyncController) :
  exists cs, exec (receiveMessages ms) s = exec (calls cs) s
             /\ trace (receiveMessages ms) s = trace (calls cs) s.
Proof.
  revert s. induction ms as [| [now message] rest IH]; intro s.
  - exists []. split; reflexivity.
  - cbn [receiveMessages]. rewrite exec_bind_result, trace_bind_result.
    unfold receiveMessage.
    destruct (onEngineSignals_as_calls now (processMessage message) s)
      as (c1 & -> & ->).
    destruct (IH (exec (calls c1) s)) as (c2 & -> & ->).
    exists (c1 ++ c2). destruct (calls_app c1 c2 s) as [-> ->].
    split; reflexivity.
Qed.

(** X10. Inbound messages are never echoed: whatever messages arrive, in
    whatever state, handling them sends no system message (no Clock, Start
    or Stop) to the output. On a controller driven since its construction
    by inbound messages only, all that is written to the output port is
    note-on [90 3C 64] and note-off [80 3C 00], and the invariants of the
    controller hold throughout. *)
Theorem slave_sends_only_notes
    (ms : list (TimePoint * list Z)) (engine portOpen : bool)
    (now : TimePoint) :
  (forall s, Forall noSystemMessage (trace (receiveMessages ms) s))
  /\ Forall (fun message =>
               message = [144; 60; 100] \/ message = [128; 60; 0])
            (wire portOpen
               (trace (receiveMessages ms) (SyncController_new engine now)))
  /\ wellFormed (exec (receiveMessages ms) (SyncController_new engine now)).
Proof.
  split; [intro s; apply receiveMessages_no_system | split].
  - pose proof (receiveMessages_no_system ms
                  (SyncController_new engine now)) as NS.
    destruct (receiveMessages_as_calls ms (SyncController_new engine now))
      as (cs & _ & T).
    pose proof (calls_events cs (SyncController_new engine now)) as CE.
    rewrite <- T in CE.
    unfold wire. apply Forall_flat_map.
    rewrite Forall_forall in *. intros e I.
    specialize (NS e I). specialize (CE e I).
    destruct e; destruct portOpen; cbn in *; try (constructor; fail);
      try (destruct NS; fail).
    + destruct CE as (_ & -> & -> & ->).
      constructor; [left; reflexivity | constructor].
    + destruct CE as (_ & -> & -> & ->).
      constructor; [right; reflexivity | constructor].
  - destruct (receiveMessages_as_calls ms (SyncController_new engine now))
      as (cs & -> & _).
    apply calls_wf, SyncController_new_wellFormed.
Qed.

(** ** Calls that repeat or follow one another *)

Lemma qAbs_diff_self (bpm : Q) : Qltb (1 # 10) (qAbs (bpm - bpm)) = false.
Proof.
  unfold Qltb. apply negb_false_iff. apply Qle_bool_iff. unfold qAbs.
  destruct (Qle_bool 0 (bpm - bpm)); lra.
Qed.

(** X11. [updateBPMFromDAW] is idempotent: called again with the same BPM
    it changes nothing and signals nothing, whatever the first call did (so
    a repeated update notifies at most once, unlike [setBPM]). *)
Theorem updateBPMFromDAW_idempotent (bpm : Q) (s : SyncController) :
  let s1 := exec (updateBPMFromDAW bpm) s in
  updateBPMFromDAW bpm s1 = (tt, s1, []).
Proof.
  unfold updateBPMFromDAW, updateSyncTimer.
  destruct (Qle_bool 20 bpm && Qle_bool bpm 300); [| reflexivity].
  destruct s. unfold_state.
  destruct (negb m_bpmUpdateBlocked0
            && Qltb (1 # 10) (qAbs (bpm - m_currentBPM0))) eqn:C.
  - destruct m_syncTimer0; rewrite qAbs_diff_self, andb_false_r;
      reflexivity.
  - rewrite C. reflexivity.
Qed.

(** X12. After a stop, inbound Continue does exactly what inbound Start
    does: [stop] has reset the position, so the run resumes from tick 0
    with nothing emitted, not from where it was stopped. *)
Theorem continue_after_stop_is_start
    (sendStopCommand : bool) (now : TimePoint) (s : SyncController) :
  let s1 := exec (stop sendStopCommand) s in
  handleDAWContinue now s1 = handleDAWStart now s1
  /\ m_clockCount (exec (handleDAWContinue now) s1) = 0
  /\ m_lastEmittedWholeNote (exec (handleDAWContinue now) s1) = -1.
Proof.
  unfold stop, handleDAWContinue, handleDAWStart. destruct s. unfold_state.
  destruct m_syncTimer0, m_engine0, m_noteOn0, sendStopCommand,
    m_transportSyncBlocked0; repeat split.
Qed.

(** X13. A second [stop] changes nothing more and sends no second
    note-off: it only repeats the Stop message (when asked to send it and
    there is an engine) and the two signals. *)
Theorem stop_twice
    (first second : bool) (s : SyncController) :
  let s1 := exec (stop first) s in
  exec (stop second) s1 = s1
  /\ trace (stop second) s1
     = (if second && m_engine s
        then [SendSystemMessage MIDI_REALTIME_STOP] else [])
       ++ [RunningChanged false; PositionChanged 0 0].
Proof.
  unfold stop. destruct s. unfold_state.
  destruct m_syncTimer0, m_engine0, m_noteOn0, first, second;
    split; reflexivity.
Qed.

(** X14. Inbound Clock while the controller is stopped: the tick count,
    the position, the last emitted boundary and the note flag stay as they
    are and only [clockTick] is signalled, but the clock is counted and the
    BPM estimator runs on: at the last clock of a window it adopts the
    measured BPM as when running. *)
Theorem clock_while_stopped (t : TimePoint) (s : SyncController) :
  m_isRunning s = false ->
  let s' := exec (handleMIDIClock t) s in
  trace (handleMIDIClock t) s = [ClockTick]
  /\ m_isRunning s' = false
  /\ m_clockCount s' = m_clockCount s
  /\ m_lastEmittedWholeNote s' = m_lastEmittedWholeNote s
  /\ m_noteOn s' = m_noteOn s
  /\ m_incomingClockCount s' = m_incomingClockCount s + 1
  /\ (s_clockWindow s = 1 ->
      m_currentBPM s'
      = if bpmAccepted s (elapsedSeconds (s_lastClockTime s) t)
        then (60 / elapsedSeconds (s_lastClockTime s) t)%Q
        else m_currentBPM s).
Proof.
  intros R s'. unfold s'.
  destruct (handleMIDIClock_blocks t s) as [-> ->].
  rewrite R. cbn [andb app].
  destruct (clockPosition_any t s)
    as (_ & _ & _ & C & I & _ & R1 & L & N & B & _ & W & LT & BB & _).
  rewrite R in C.
  set (sa := exec (clockPosition t) s) in *.
  destruct (bpmWindow_frame t sa)
    as (_ & -> & -> & -> & -> & _).
  rewrite R1, R, C, L, N.
  repeat split.
  - unfold sa, clockPosition, bpmWindow, updateSyncTimer. clear.
    destruct s. unfold_state. case_ifs; reflexivity.
  - intro W1. rewrite <- W in W1.
    destruct (bpmWindow_evaluating t sa W1) as (_ & _ & ->).
    unfold bpmAccepted. rewrite B, BB, LT. reflexivity.
Qed.

Lemma clock_while_stopped_witness :
  trace (handleMIDIClock 7) newController = [ClockTick].
Proof.
  destruct (clock_while_stopped 7 newController) as [H _];
    [reflexivity | exact H].
Defined.

(** X15. The inbound queue is first in, first out and loses nothing:
    after any messages have been handed to [rtMidiCallback],
    [processQueuedMessages] signals, oldest first, what each message
    signals by itself, and leaves the queue empty; an empty message, which
    is not queued, signals nothing. *)
Theorem queue_first_in_first_out
    (messages : list (list Z)) (queue : list (list Z)) :
  processQueuedMessages
    (fold_left (fun q message => rtMidiCallback message q) messages queue)
  = (flat_map processMessage queue ++ flat_map processMessage messages, []).
Proof.
  unfold processQueuedMessages. f_equal.
  revert queue. induction messages as [| message rest IH]; intro queue.
  - cbn. rewrite app_nil_r. reflexivity.
  - cbn [fold_left flat_map]. rewrite IH.
    destruct message as [| status data].
    + reflexivity.
    + cbn [rtMidiCallback]. rewrite flat_map_app. cbn [flat_map].
      rewrite app_nil_r, <- app_assoc. reflexivity.
Qed.

(** X16. The position decoded from any Song Position Pointer message is
    never negative and below 65536, and the quarter-note position signalled
    with it is a quarter of it: the controller's test
    [positionBeats >= 0] never fails for a position received from the
    input port. *)
Theorem decoded_song_position_not_negative
    (message : list Z) (positionBeats : Z) (positionQuarterNotes : Q) :
  In (MidiSongPositionPointerReceived positionBeats positionQuarterNotes)
     (processMessage message) ->
  0 <= positionBeats < 65536
  /\ positionQuarterNotes = sppQuarterNotes positionBeats
  /\ (0 <= positionQuarterNotes)%Q
  /\ forall s,
       result (sppUpdatePosition positionBeats positionQuarterNotes) s
       = m_isRunning s.
Proof.
  intro H.
  assert (X : exists lsb msb, positionBeats = sppPosition lsb msb
                              /\ positionQuarterNotes
                                 = sppQuarterNotes positionBeats).
  { unfold processMessage in H. destruct message as [| status data];
      [destruct H |].
    repeat match type of H with
           | context [if ?c then _ else _] => destruct c
           end;
      try (destruct H as [H | []]; discriminate H); try (destruct H; fail).
    destruct data as [| lsb [| msb rest]]; try (destruct H; fail).
    destruct H as [H | []]. injection H as <- <-.
    exists lsb, msb. split; reflexivity. }
  destruct X as (lsb & msb & -> & ->).
  assert (P : 0 <= sppPosition lsb msb < 65536)
    by (unfold sppPosition; apply Z.mod_pos_bound; lia).
  split; [exact P | split; [reflexivity | split]].
  - unfold sppQuarterNotes. apply Qle_shift_div_l; [reflexivity |].
    rewrite Qmult_0_l. change 0%Q with (inject_Z 0). rewrite <- Zle_Qle. lia.
  - intro s. unfold sppUpdatePosition.
    destruct (0 <=? sppPosition lsb msb) eqn:G; [| apply Z.leb_gt in G; lia].
    clear. destruct s. unfold_state. case_ifs; reflexivity.
Qed.

Lemma decoded_song_position_not_negative_witness :
  0 <= 16 < 65536.
Proof.
  destruct (decoded_song_position_not_negative [242; 16; 0] 16
              (sppQuarterNotes 16)) as [H _];
    [left; reflexivity | exact H].
Defined.

(** ** Running as master: the timer's ticks against inbound clocks *)








Lemma onStartStop_selected (now : TimePoint) (s : SyncController) :
  exec (onStartStop true now) s
  = (if m_isRunning s then exec (stop true) s else exec (start true now) s)
  /\ trace (onStartStop true now) s
     = (if m_isRunning s then trace (stop true) s
        else trace (start true now) s).
Proof.
  unfold onStartStop. rewrite exec_bind_result, trace_bind_result.
  change (result get s) with s. change (exec get s) with s.
  change (trace get s) with (@nil Event).
  destruct (m_isRunning s); split; reflexivity.
Qed.






(** ** The output port *)

Lemma findPortIndexFrom_spec (ports : list String.string)
    (portName : String.string) :
  forall i : Z,
    let r := findPortIndexFrom i ports portName in
    (~ In portName ports -> r = -1)
    /\ (In portName ports ->
        i <= r < i + Z.of_nat (length ports)
        /\ nth (Z.to_nat (r - i)) ports String.EmptyString = portName
        /\ forall j, (j < Z.to_nat (r - i))%nat ->
                     nth j ports String.EmptyString <> portName).
Proof.
  induction ports as [| port rest IH]; intro i; cbn [findPortIndexFrom].
  - split; [reflexivity | intros []].
  - destruct (String.eqb port portName) eqn:Q.
    + apply String.eqb_eq in Q. subst port. split.
      * intro H. exfalso. apply H. left. reflexivity.
      * intros _. rewrite Z.sub_diag. cbn [Z.to_nat nth length].
        split; [lia | split; [reflexivity | intros j H; lia]].
    + apply String.eqb_neq in Q. specialize (IH (i + 1)).
      cbv zeta in IH. destruct IH as (N & Y).
      set (r := findPortIndexFrom (i + 1) rest portName) in *.
      split.
      * intro H. apply N. intro I. apply H. right. exact I.
      * intros [I | I]; [contradiction |].
        destruct (Y I) as (B & M & F). cbn [length].
        replace (Z.to_nat (r - i)) with (Datatypes.S (Z.to_nat (r - (i + 1))))
          by lia.
        split; [lia | split; [exact M |]].
        intros [| j] H; cbn [nth]; [exact Q | apply F; lia].
Qed.

Lemma findPortIndex_listed (ports : list String.string)
    (portName : String.string) :
  In portName ports ->
  let r := findPortIndex ports portName in
  0 <= r < Z.of_nat (length ports)
  /\ nth (Z.to_nat r) ports String.EmptyString = portName
  /\ forall j, (j < Z.to_nat r)%nat ->
               nth j ports String.EmptyString <> portName.
Proof.
  intro H. unfold findPortIndex.
  destruct (findPortIndexFrom_spec ports portName 0) as (_ & Y).
  destruct (Y H) as (B & M & F). rewrite Z.sub_0_r in M, F.
  split; [lia | split; assumption].
Qed.

Lemma findPortIndex_unlisted (ports : list String.string)
    (portName : String.string) :
  ~ In portName ports -> findPortIndex ports portName = -1.
Proof.
  intro H. unfold findPortIndex.
  destruct (findPortIndexFrom_spec ports portName 0) as (N & _).
  apply N, H.
Qed.

Lemma NoDup_nth_eq (ports : list String.string) (i j : nat) :
  NoDup ports -> (i < length ports)%nat -> (j < length ports)%nat ->
  nth i ports String.EmptyString = nth j ports String.EmptyString -> i = j.
Proof.
  intros D I J H. apply (proj1 (NoDup_nth ports String.EmptyString) D);
    assumption.
Qed.

(** X18. Selecting an output port in the window opens the first port that
    bears the selected name. For a valid index into the list of ports (the
    window's copy being the engine's list), with [RtMidiOut] present and
    the port opening, the engine ends with the port open, the selected name
    current and signalled, and the index opened the least one with that
    name: it is the selected index when the names are distinct, and an
    earlier one when the selected port shares its name with an earlier
    port. *)
Theorem selected_port_opens_first_of_its_name
    (index : Z) (e : MidiOutput) :
  m_rtMidiOut e = true ->
  0 <= index < Z.of_nat (length (m_availableOutputPorts e)) ->
  let ports := m_availableOutputPorts e in
  let portName := nth (Z.to_nat index) ports String.EmptyString in
  let e' := fst (onPortChanged index ports true e) in
  canSend e' = true
  /\ currentOutputPort e' = portName
  /\ snd (onPortChanged index ports true e) = [portName]
  /\ 0 <= m_currentOutputPortIndex e' <= index
  /\ nth (Z.to_nat (m_currentOutputPortIndex e')) ports String.EmptyString
     = portName
  /\ (forall j, 0 <= j < m_currentOutputPortIndex e' ->
                nth (Z.to_nat j) ports String.EmptyString <> portName)
  /\ (NoDup ports -> m_currentOutputPortIndex e' = index).
Proof.
  intros RT B ports portName e'.
  assert (I : In portName ports) by (apply nth_In; fold ports in B; lia).
  destruct (findPortIndex_listed ports portName I) as (RB & M & F).
  assert (X : onPortChanged index ports true e
              = (mkOutput true true ports (findPortIndex ports portName)
                          portName, [portName])).
  { unfold onPortChanged, openOutputPort. fold ports.
    assert (G : (0 <=? index) && (index <? Z.of_nat (length ports)) = true)
      by (apply andb_true_iff; split;
          [apply Z.leb_le | apply Z.ltb_lt]; fold ports in B; lia).
    rewrite G, RT. cbn [negb]. fold portName.
    assert (G2 : (findPortIndex ports portName <? 0) = false)
      by (apply Z.ltb_ge; lia).
    rewrite G2. reflexivity. }
  unfold e'. rewrite X. cbn [fst snd canSend currentOutputPort m_rtMidiOut
    isPortOpen m_currentOutputPortIndex m_currentOutputPortName andb].
  set (r := findPortIndex ports portName) in *.
  assert (LE : r <= index).
  { destruct (Z.le_gt_cases r index) as [H | H]; [exact H |].
    exfalso. apply (F (Z.to_nat index)); [lia | reflexivity]. }
  repeat split; try assumption; try lia.
  - intros j J. apply F. lia.
  - intro D. fold ports in B.
    assert (Z.to_nat r = Z.to_nat index); [| lia].
    apply (NoDup_nth_eq ports); try assumption; try lia.
Qed.

Lemma selected_port_opens_first_of_its_name_witness :
  m_currentOutputPortIndex
    (fst (onPortChanged 2 ["IAC Bus"%string; "Synth"%string; "IAC Bus"%string]
            true
            (mkOutput true false
               ["IAC Bus"%string; "Synth"%string; "IAC Bus"%string]
               (-1) String.EmptyString)))
  <= 2.
Proof.
  destruct (selected_port_opens_first_of_its_name 2
              (mkOutput true false
                 ["IAC Bus"%string; "Synth"%string; "IAC Bus"%string]
                 (-1) String.EmptyString))
    as (_ & _ & _ & H & _); [reflexivity | cbn; lia | apply H].
Defined.

(** X19. [openOutputPort] with a name that is not in the list of ports
    fails, and closes the port that was open, but keeps the current port
    name and index. If a port was current, the window's test on the
    current port name still passes afterwards: the Start/Stop button then
    starts the controller, and all that the controller sends is dropped by
    the engine. *)
Theorem unknown_port_name_leaves_stale_port
    (portName : String.string) (opens : bool) (e : MidiOutput)
    (now : TimePoint) (s : SyncController) :
  m_rtMidiOut e = true ->
  ~ In portName (m_availableOutputPorts e) ->
  let e' := snd (fst (openOutputPort portName opens e)) in
  fst (fst (openOutputPort portName opens e)) = false
  /\ snd (openOutputPort portName opens e) = []
  /\ canSend e' = false
  /\ currentOutputPort e' = currentOutputPort e
  /\ m_currentOutputPortIndex e' = m_currentOutputPortIndex e
  /\ (currentOutputPort e <> String.EmptyString ->
      m_isRunning s = false ->
      trace (onStartStop (portSelected e') now) s = trace (start true now) s
      /\ wire (canSend e') (trace (onStartStop (portSelected e') now) s)
         = []).
Proof.
  intros RT U. unfold openOutputPort. rewrite RT. cbn [negb].
  rewrite (findPortIndex_unlisted _ _ U).
  change (-1 <? 0) with true. cbv iota.
  cbn [fst snd canSend currentOutputPort m_rtMidiOut isPortOpen
       m_currentOutputPortIndex m_currentOutputPortName andb].
  repeat split.
  - unfold portSelected, currentOutputPort. cbn [m_currentOutputPortName].
    apply String.eqb_neq in H. unfold currentOutputPort in H. rewrite H.
    cbn [negb]. destruct (onStartStop_selected now s) as [_ ->].
    rewrite H0. reflexivity.
  - unfold wire. induction (trace _ s) as [| ev tr IH]; [reflexivity |].
    cbn [flat_map]. rewrite IH. destruct ev; reflexivity.
Qed.

Lemma unknown_port_name_leaves_stale_port_witness :
  currentOutputPort
    (snd (fst (openOutputPort "Gone"%string true
                 (mkOutput true true ["IAC Bus"%string] 0
                           "IAC Bus"%string))))
  = "IAC Bus"%string.
Proof.
  destruct (unknown_port_name_leaves_stale_port "Gone"%string true
              (mkOutput true true ["IAC Bus"%string] 0 "IAC Bus"%string)
              0 newController)
    as (_ & _ & _ & H & _).
  - reflexivity.
  - cbn. intros [H | []]. discriminate H.
  - exact H.
Defined.

(** ** The window: port auto-selection and the BPM spin box *)

Section AutoSelectChoice.

Variable contains : String.string -> String.string -> bool.
Variable toInt : String.string -> option Z.
Variable ports : list String.string.

Let chosen : String.string := findAutoSelectPort contains toInt ports.

Lemma find_none_of (f : String.string -> bool) :
  (forall port, In port ports -> f port = false) -> find f ports = None.
Proof.
  intro H. destruct (find f ports) as [port |] eqn:F; [| reflexivity].
  apply find_some in F. destruct F as [I T]. rewrite (H port I) in T.
  discriminate T.
Qed.

Lemma find_some_of (f : String.string -> bool) (port : String.string) :
  In port ports -> f port = true ->
  exists found, find f ports = Some found /\ In found ports
                /\ f found = true.
Proof.
  intros I T. destruct (find f ports) as [found |] eqn:F.
  - exists found. apply find_some in F. tauto.
  - rewrite (find_none _ _ F port I) in T. discriminate T.
Qed.

(** X20. The port the window selects by itself is a listed port, or none
    (the empty name) when every port is excluded. A port whose name
    contains "IAC" is selected whenever there is one, and otherwise one
    whose name contains "Virtual", whatever else these names contain. When
    no name contains "IAC" or "Virtual", the selected port has a name
    without "Network", "rtpMIDI" and "rtp.MIDI", and a port is selected as
    soon as one port is not a network port. *)
Theorem findAutoSelectPort_choice :
  (chosen = String.EmptyString \/ In chosen ports)
  /\ (forall port, In port ports -> contains port "IAC"%string = true ->
                   In chosen ports /\ contains chosen "IAC"%string = true)
  /\ ((forall port, In port ports -> contains port "IAC"%string = false) ->
      forall port, In port ports -> contains port "Virtual"%string = true ->
                   In chosen ports
                   /\ contains chosen "Virtual"%string = true)
  /\ ((forall port, In port ports ->
                    contains port "IAC"%string = false
                    /\ contains port "Virtual"%string = false) ->
      (In chosen ports /\ isNetworkName contains chosen = false)
      \/ (chosen = String.EmptyString
          /\ forall port, In port ports ->
                          isNetworkPort contains toInt port = true))
  /\ (forall port, In port ports ->
                   isNetworkPort contains toInt port = false ->
                   In chosen ports).
Proof.
  assert (T4 : forall rest port,
             filter (fun p => negb (isNetworkPort contains toInt p)) ports
             = port :: rest ->
             In port ports /\ isNetworkName contains port = false).
  { intros rest port F.
    assert (I : In port (filter (fun p => negb (isNetworkPort contains
                                                  toInt p)) ports))
      by (rewrite F; left; reflexivity).
    apply filter_In in I. destruct I as [I N]. split; [exact I |].
    apply negb_true_iff in N. unfold isNetworkPort in N.
    apply orb_false_iff in N. tauto. }
  assert (T3 : forall port, find (isLoopbackPort contains) ports = Some port ->
                            In port ports
                            /\ isNetworkName contains port = false).
  { intros port F. apply find_some in F. destruct F as [I L].
    split; [exact I |]. unfold isLoopbackPort in L.
    repeat (apply andb_true_iff in L; destruct L as [L ?]).
    unfold isNetworkName.
    repeat match goal with
           | H : negb _ = true |- _ => apply negb_true_iff in H; rewrite H
           end.
    reflexivity. }
  unfold chosen, findAutoSelectPort.
  set (f1 := fun port => contains port "IAC"%string).
  set (f2 := fun port => contains port "Virtual"%string).
  set (f3 := isLoopbackPort contains) in *.
  set (f4 := fun port => negb (isNetworkPort contains toInt port)) in *.
  split; [| split; [| split; [| split]]].
  - destruct (find f1 ports) as [p |] eqn:F1;
      [right; apply (find_some _ _ F1) |].
    destruct (find f2 ports) as [p |] eqn:F2;
      [right; apply (find_some _ _ F2) |].
    destruct (find f3 ports) as [p |] eqn:F3;
      [right; apply (find_some _ _ F3) |].
    destruct (filter f4 ports) as [| p rest] eqn:F4; [left; reflexivity |].
    right. apply (T4 rest p eq_refl).
  - intros port I C.
    destruct (find_some_of f1 port I C) as (found & -> & FI & FC).
    split; assumption.
  - intros N port I C.
    rewrite (find_none_of f1 N).
    destruct (find_some_of f2 port I C) as (found & -> & FI & FC).
    split; assumption.
  - intro N.
    rewrite (find_none_of f1) by (intros p I; apply (N p I)).
    rewrite (find_none_of f2) by (intros p I; apply (N p I)).
    destruct (find f3 ports) as [p |] eqn:F3; [left; apply (T3 p eq_refl) |].
    destruct (filter f4 ports) as [| p rest] eqn:F4;
      [| left; apply (T4 rest p eq_refl)].
    right. split; [reflexivity |]. intros port I.
    destruct (isNetworkPort contains toInt port) eqn:X; [reflexivity |].
    assert (M : In port (filter f4 ports))
      by (apply filter_In; split; [exact I | unfold f4; rewrite X;
                                               reflexivity]).
    rewrite F4 in M. destruct M.
  - intros port I X.
    destruct (find f1 ports) as [p |] eqn:F1; [apply (find_some _ _ F1) |].
    destruct (find f2 ports) as [p |] eqn:F2; [apply (find_some _ _ F2) |].
    destruct (find f3 ports) as [p |] eqn:F3; [apply (find_some _ _ F3) |].
    destruct (filter f4 ports) as [| p rest] eqn:F4; [| apply (T4 rest p eq_refl)].
    assert (M : In port (filter f4 ports))
      by (apply filter_In; split; [exact I | unfold f4; rewrite X;
                                               reflexivity]).
    rewrite F4 in M. destruct M.
Qed.

End AutoSelectChoice.

Lemma findAutoSelectPort_choice_witness :
  let contains port pattern :=
    match String.index 0 pattern port with
    | Some _ => true
    | None => false
    end in
  let ports := ["Network Session 1"%string; "IAC Driver Bus 1"%string] in
  In (findAutoSelectPort contains (fun _ => None) ports) ports
  /\ contains (findAutoSelectPort contains (fun _ => None) ports)
              "IAC"%string = true.
Proof.
  intros contains ports.
  destruct (findAutoSelectPort_choice contains (fun _ => None) ports)
    as (_ & H & _).
  apply (H "IAC Driver Bus 1"%string); [right; left; reflexivity |].
  reflexivity.
Defined.




(** ** The bookkeeping that is written and never read *)

Lemma forgetBookkeeping_idem (s : SyncController) :
  forgetBookkeeping (forgetBookkeeping s) = forgetBookkeeping s.
Proof. destruct s. reflexivity. Qed.

Lemma forgetBookkeeping_fields (s : SyncController) :
  m_isRunning (forgetBookkeeping s) = m_isRunning s
  /\ m_engine (forgetBookkeeping s) = m_engine s
  /\ m_clockCount (forgetBookkeeping s) = m_clockCount s.
Proof. destruct s. repeat split. Qed.

(** A block that reads none of the bookkeeping. *)
Ltac forget_simple :=
  match goal with s : SyncController |- _ => destruct s end;
  unfold forgetBookkeeping; unfold_state; case_timer; case_ifs;
  repeat split; try reflexivity; congruence.

Lemma from_forgotten {A} (c : Cmd A) :
  (forall s, trace c (forgetBookkeeping s) = trace c s
             /\ result c (forgetBookkeeping s) = result c s
             /\ forgetBookkeeping (exec c (forgetBookkeeping s))
                = forgetBookkeeping (exec c s)) ->
  forall a b, forgetBookkeeping a = forgetBookkeeping b ->
              trace c a = trace c b /\ result c a = result c b
              /\ forgetBookkeeping (exec c a) = forgetBookkeeping (exec c b).
Proof.
  intros H a b E.
  destruct (H a) as (Ta & Ra & Xa). destruct (H b) as (Tb & Rb & Xb).
  rewrite <- Ta, <- Tb, <- Ra, <- Rb, <- Xa, <- Xb, E. repeat split.
Qed.

Lemma checkAndEmitWholeNote_forgotten (pos : Q) (s : SyncController) :
  trace (checkAndEmitWholeNote pos) (forgetBookkeeping s)
  = trace (checkAndEmitWholeNote pos) s
  /\ result (checkAndEmitWholeNote pos) (forgetBookkeeping s)
     = result (checkAndEmitWholeNote pos) s
  /\ forgetBookkeeping (exec (checkAndEmitWholeNote pos)
                          (forgetBookkeeping s))
     = forgetBookkeeping (exec (checkAndEmitWholeNote pos) s).
Proof.
  unfold checkAndEmitWholeNote, shouldEmit, boundaryToEmit, isFirstDownbeat,
    noteShouldBeOff.
  forget_simple.
Qed.

Lemma bpmWindow_forgotten (t : TimePoint) (s : SyncController) :
  trace (bpmWindow t) (forgetBookkeeping s) = trace (bpmWindow t) s
  /\ result (bpmWindow t) (forgetBookkeeping s) = result (bpmWindow t) s
  /\ forgetBookkeeping (exec (bpmWindow t) (forgetBookkeeping s))
     = forgetBookkeeping (exec (bpmWindow t) s).
Proof. unfold bpmWindow, updateSyncTimer. forget_simple. Qed.

Lemma clockPosition_forgotten (t : TimePoint) (s : SyncController) :
  trace (clockPosition t) (forgetBookkeeping s) = trace (clockPosition t) s
  /\ result (clockPosition t) (forgetBookkeeping s)
     = result (clockPosition t) s
  /\ forgetBookkeeping (exec (clockPosition t) (forgetBookkeeping s))
     = forgetBookkeeping (exec (clockPosition t) s).
Proof. unfold clockPosition. forget_simple. Qed.

Lemma sppUpdatePosition_forgotten
    (positionBeats : Z) (positionQuarterNotes : Q) (s : SyncController) :
  trace (sppUpdatePosition positionBeats positionQuarterNotes)
    (forgetBookkeeping s)
  = trace (sppUpdatePosition positionBeats positionQuarterNotes) s
  /\ result (sppUpdatePosition positionBeats positionQuarterNotes)
       (forgetBookkeeping s)
     = result (sppUpdatePosition positionBeats positionQuarterNotes) s
  /\ forgetBookkeeping
       (exec (sppUpdatePosition positionBeats positionQuarterNotes)
          (forgetBookkeeping s))
     = forgetBookkeeping
         (exec (sppUpdatePosition positionBeats positionQuarterNotes) s).
Proof. unfold sppUpdatePosition. forget_simple. Qed.

Lemma tickPosition_forgotten (s : SyncController) :
  forgetBookkeeping (tickPosition (forgetBookkeeping s))
  = forgetBookkeeping (tickPosition s).
Proof. unfold tickPosition. forget_simple. Qed.

Lemma forgotten_fields (a b : SyncController) :
  forgetBookkeeping a = forgetBookkeeping b ->
  m_isRunning a = m_isRunning b /\ m_engine a = m_engine b
  /\ m_clockCount a = m_clockCount b.
Proof.
  intro E.
  destruct (forgetBookkeeping_fields a) as (<- & <- & <-).
  destruct (forgetBookkeeping_fields b) as (<- & <- & <-).
  rewrite E. repeat split.
Qed.

Ltac forgotten_simple :=
  intros a b E;
  match goal with
  | |- trace ?c a = trace ?c b /\ _ =>
      destruct (from_forgotten c) with (a := a) (b := b) as (T & _ & X);
      [clear; intro s; forget_simple | exact E | split; [exact T | exact X]]
  end.

Lemma call_forgotten (c : Call) :
  forall a b : SyncController,
    forgetBookkeeping a = forgetBookkeeping b ->
    trace (call c) a = trace (call c) b
    /\ forgetBookkeeping (exec (call c) a)
       = forgetBookkeeping (exec (call c) b).
Proof.
  destruct c; cbn [call].
  - unfold setBPM, updateSyncTimer. forgotten_simple.
  - unfold blockBPMUpdates. forgotten_simple.
  - unfold blockTransportSync. forgotten_simple.
  - unfold start, updateSyncTimer. forgotten_simple.
  - unfold stop. forgotten_simple.
  - unfold handleDAWStart. forgotten_simple.
  - unfold handleDAWStop, stop. forgotten_simple.
  - unfold handleDAWContinue. forgotten_simple.
  - intros a b E.
    destruct (handleMIDIClock_blocks now a) as [-> ->].
    destruct (handleMIDIClock_blocks now b) as [-> ->].
    destruct (forgotten_fields a b E) as (-> & -> & _).
    destruct (from_forgotten (clockPosition now)
                (clockPosition_forgotten now) a b E) as (_ & -> & E1).
    set (pos := snd (result (clockPosition now) b)).
    destruct (from_forgotten (checkAndEmitWholeNote pos)
                (checkAndEmitWholeNote_forgotten pos) _ _ E1)
      as (T2 & _ & E2).
    destruct (m_isRunning b && m_engine b).
    + rewrite T2. split; [reflexivity |].
      apply (from_forgotten (bpmWindow now) (bpmWindow_forgotten now)).
      exact E2.
    + split; [reflexivity |].
      apply (from_forgotten (bpmWindow now) (bpmWindow_forgotten now)).
      exact E1.
  - intros a b E.
    destruct (handleSongPositionPointer_blocks positionBeats
                positionQuarterNotes a) as [-> ->].
    destruct (handleSongPositionPointer_blocks positionBeats
                positionQuarterNotes b) as [-> ->].
    destruct (forgotten_fields a b E) as (-> & _ & _).
    destruct (from_forgotten
                (sppUpdatePosition positionBeats positionQuarterNotes)
                (sppUpdatePosition_forgotten positionBeats
                   positionQuarterNotes) a b E) as (_ & _ & E1).
    destruct (from_forgotten (checkAndEmitWholeNote positionQuarterNotes)
                (checkAndEmitWholeNote_forgotten positionQuarterNotes)
                _ _ E1)
      as (T2 & _ & E2).
    destruct (_ && _ && _).
    + rewrite T2. split; [reflexivity | exact E2].
    + split; [reflexivity | exact E1].
  - intros a b E.
    destruct (onSyncTick_blocks a) as [-> ->].
    destruct (onSyncTick_blocks b) as [-> ->].
    destruct (forgotten_fields a b E) as (-> & -> & ->).
    assert (E1 : forgetBookkeeping (tickPosition a)
                 = forgetBookkeeping (tickPosition b))
      by (rewrite <- (tickPosition_forgotten a),
            <- (tickPosition_forgotten b), E; reflexivity).
    set (pos := (inject_Z (m_clockCount b + 1)
                 / inject_Z CLOCKS_PER_QUARTER_NOTE)%Q).
    destruct (from_forgotten (checkAndEmitWholeNote pos)
                (checkAndEmitWholeNote_forgotten pos) _ _ E1)
      as (T2 & _ & E2).
    destruct (m_isRunning b && m_engine b).
    + rewrite T2. split; [reflexivity | exact E2].
    + split; [reflexivity | exact E1].
  - unfold syncBPMToDAW. forgotten_simple.
  - unfold updateBPMFromDAW, updateSyncTimer. forgotten_simple.
Qed.

(** X22. The drift and prediction bookkeeping is written and never read.
    Two controllers that differ only in the clocks counted since the last
    boundary, the predicted next boundary, the pending flag and the
    instants of the last clock and of the last start send and signal
    exactly the same for every sequence of calls, and keep all their other
    fields equal: this bookkeeping has no effect on what the controller
    does. *)
Theorem bookkeeping_never_read (cs : list Call) (a b : SyncController) :
  forgetBookkeeping a = forgetBookkeeping b ->
  trace (calls cs) a = trace (calls cs) b
  /\ forgetBookkeeping (exec (calls cs) a)
     = forgetBookkeeping (exec (calls cs) b).
Proof.
  revert a b. induction cs as [| c cs IH]; intros a b E.
  - split; [reflexivity | exact E].
  - destruct (calls_cons c cs a) as [-> ->].
    destruct (calls_cons c cs b) as [-> ->].
    destruct (call_forgotten c a b E) as [-> E1].
    destruct (IH _ _ E1) as [-> E2].
    split; [reflexivity | exact E2].
Qed.

Lemma bookkeeping_never_read_witness :
  trace (calls [CallHandleDAWStart 0; CallHandleMIDIClock 1])
    (set_clocksSinceLastBoundary 57 newController)
  = trace (calls [CallHandleDAWStart 0; CallHandleMIDIClock 1])
      newController.
Proof.
  destruct (bookkeeping_never_read
              [CallHandleDAWStart 0; CallHandleMIDIClock 1]
              (set_clocksSinceLastBoundary 57 newController) newController)
    as [H _]; [reflexivity | exact H].
Defined.
